(** * go-adc: the register layer codec and the control API handlers

    A shallow embedding of
      - pkg/layers: [RegOp], [RegLayer], [Serialize], [SerializeTo],
        [DecodeFromBytes], [DecodeRegLayer];
      - pkg/srv/control: [regReadHex], [regReadAllHex], [handleRegRead],
        [handleRegReadAll], [handleRegWrite], [handleMStreamAction],
        [handleMStreamActionAll].

    Conventions.
      - Go's fixed-width integers are [Z] with the conversions written out
        ([uint32], [uint16], [int8]).
      - A byte slice is a [list byte] whose capacity equals its length; slice
        indices and [len] are [nat] (the overflow of Go's 64-bit [int] is out
        of reach of any buffer that fits in memory).
      - A run-time panic (slice bounds out of range) is the [Panicked]
        outcome of the [go] monad.
      - [RegOps []*RegOp] is a list of operations: the pointers are taken to
        be non-nil, as every producer in the package makes them.
      - [log.Debug] calls have no effect on the values computed and are
        left out. *)

From Stdlib Require Import String HexString ZArith List Lia Bool Arith.
From coqutil Require Import Byte.
Import ListNotations.
Local Open Scope Z_scope.

(** ** Outcomes of Go code that may panic *)

Inductive go (A : Type) : Type :=
| Done (a : A)
| Panicked.
Arguments Done {A} a.
Arguments Panicked {A}.

Definition go_bind {A B : Type} (m : go A) (k : A -> go B) : go B :=
  match m with
  | Done a => k a
  | Panicked => Panicked
  end.

Notation "x <- m ;; k" := (go_bind m (fun x => k))
  (at level 61, m at next level, right associativity).

(** ** Go integer conversions *)

Definition uint32 (z : Z) : Z := z mod 2 ^ 32.
Definition uint16 (z : Z) : Z := z mod 2 ^ 16.
Definition int8 (z : Z) : Z := (z + 2 ^ 7) mod 2 ^ 8 - 2 ^ 7.

(** ** Slices *)

(** [s[lo:hi]]: panics unless [lo <= hi <= len(s)]. *)
Definition slice (s : list byte) (lo hi : nat) : go (list byte) :=
  if (lo <=? hi)%nat && (hi <=? length s)%nat
  then Done (firstn (hi - lo) (skipn lo s))
  else Panicked.

(** The effect on [s] of overwriting the sub-slice that starts at [lo] with
    [bs]: a sub-slice shares its backing array with [s]. *)
Definition store (s : list byte) (lo : nat) (bs : list byte) : list byte :=
  firstn lo s ++ bs ++ skipn (lo + length bs) s.

(** ** encoding/binary, LittleEndian *)

(** [binary.LittleEndian.PutUint32(b, v)]; the result is the new content of
    [b].  The bounds check [_ = b[3]] is the match. *)
Definition PutUint32 (b : list byte) (v : Z) : go (list byte) :=
  match b with
  | _ :: _ :: _ :: _ :: rest =>
      Done (byte.of_Z v
            :: byte.of_Z (Z.shiftr v 8)
            :: byte.of_Z (Z.shiftr v 16)
            :: byte.of_Z (Z.shiftr v 24)
            :: rest)
  | _ => Panicked
  end.

(** [binary.LittleEndian.Uint32(b)]. *)
Definition Uint32 (b : list byte) : go Z :=
  match b with
  | b0 :: b1 :: b2 :: b3 :: _ =>
      Done (Z.lor (Z.lor (Z.lor (byte.unsigned b0)
                                (uint32 (Z.shiftl (byte.unsigned b1) 8)))
                         (uint32 (Z.shiftl (byte.unsigned b2) 16)))
                  (uint32 (Z.shiftl (byte.unsigned b3) 24)))
  | _ => Panicked
  end.

(** ** Errors *)

(** A Go [error] value.  [srv.ErrUnknownOperation] is the one error the
    modelled code builds itself; an error that comes from a collaborator
    (gopacket, the control server, a device) is known by its message. *)
Inductive error : Type :=
| ErrUnknownOperation (What : string)
| ErrCollaborator (msg : string).

(** ** pkg/layers: the register layer *)

Module Layers.

Definition RegLayerNum : Z := 1997.

Record RegOp : Type := mkRegOp {
  Read : bool;
  RegNum : Z;       (* uint16 *)
  RegValue : Z      (* uint16; if Read is true, RegValue is ignored *)
}.

(** The values the Go type [RegOp] can hold. *)
Definition RegOp_wf (op : RegOp) : Prop :=
  0 <= RegNum op < 2 ^ 16 /\ 0 <= RegValue op < 2 ^ 16.

Record RegLayer : Type := mkRegLayer {
  Contents : list byte;   (* layers.BaseLayer *)
  Payload : list byte;
  RegOps : list RegOp
}.

(** [&RegLayer{}] *)
Definition emptyRegLayer : RegLayer :=
  {| Contents := []; Payload := []; RegOps := [] |}.

(** The word [Serialize] hands to [PutUint32] for one operation. *)
Definition wordOf (op : RegOp) : Z :=
  if Read op
  then Z.lor 0x80000000
             (uint32 (Z.shiftl (Z.land (uint32 (RegNum op)) 0x7fff) 16))
  else Z.lor (Z.lor 0x00000000
                    (uint32 (Z.shiftl (Z.land (uint32 (RegNum op)) 0x7fff) 16)))
             (uint32 (RegValue op)).

(** The body of [for i, op := range reg.RegOps], from index [i] on. *)
Fixpoint Serialize_range (i : nat) (ops : list RegOp) (buf : list byte)
  : go (list byte) :=
  match ops with
  | [] => Done buf
  | op :: rest =>
      let offset := (i * 4)%nat in
      b <- slice buf offset (offset + 4) ;;
      b' <- PutUint32 b (wordOf op) ;;
      Serialize_range (S i) rest (store buf offset b')
  end.

(** [func (reg *RegLayer) Serialize(buf []byte)]; the result is the content
    of [buf] on return. *)
Definition Serialize (reg : RegLayer) (buf : list byte) : go (list byte) :=
  Serialize_range 0 (RegOps reg) buf.

(** The operation [DecodeFromBytes] builds from one wire word. *)
Definition regOpOf (word : Z) : RegOp :=
  {| Read := if int8 (Z.shiftr (Z.land word 0x80000000) 31) =? 1
             then true else false;
     RegNum := uint16 (Z.shiftr (Z.land word 0x7fff0000) 16);
     RegValue := uint16 (Z.land word 0x0000ffff) |}.

(** [for i := 0; i < len(data) / 4; i++], with [n] iterations left from
    index [i]; [ops] is [reg.RegOps]. *)
Fixpoint DecodeFromBytes_loop (n i : nat) (data : list byte)
  (ops : list RegOp) : go (list RegOp) :=
  match n with
  | O => Done ops
  | S n' =>
      let offset := (i * 4)%nat in
      b <- slice data (offset + 0) (offset + 4) ;;
      word <- Uint32 b ;;
      DecodeFromBytes_loop n' (S i) data (ops ++ [regOpOf word])
  end.

(** [func (reg *RegLayer) DecodeFromBytes(data []byte, df
    gopacket.DecodeFeedback) error]: the layer on return and the error
    returned.  [df] is not used by the body. *)
Definition DecodeFromBytes (reg : RegLayer) (data : list byte)
  : go (RegLayer * option error) :=
  contents <- slice data 0 (length data) ;;
  ops <- DecodeFromBytes_loop (length data / 4)%nat 0 data (RegOps reg) ;;
  Done ({| Contents := contents; Payload := []; RegOps := ops |}, None).

(** [func DecodeRegLayer(data []byte, p gopacket.PacketBuilder) error]: the
    layer handed to [p.AddLayer], if any, and the error returned. *)
Definition DecodeRegLayer (data : list byte)
  : go (option RegLayer * option error) :=
  r <- DecodeFromBytes emptyRegLayer data ;;
  match snd r with
  | Some err => Done (None, Some err)
  | None => Done (Some (fst r), None)
  end.

Section SerializeTo.

(** [gopacket.SerializeBuffer] is an interface of the gopacket library.
    [AppendBytes(num)] either fails and leaves the buffer as it was, or
    grows the buffer by [num] bytes of arbitrary content and returns the
    slice of these bytes.  The two variables are the library's choices:
    whether the call on a buffer holding [b] fails, and the previous
    content of the [k]-th new byte. *)
Variable AppendBytes_err : list byte -> nat -> option error.
Variable AppendBytes_old : list byte -> nat -> nat -> byte.

Definition AppendBytes (b : list byte) (num : nat)
  : list byte * option error :=
  match AppendBytes_err b num with
  | Some err => ([], Some err)
  | None => (map (AppendBytes_old b num) (seq 0 num), None)
  end.

(** [func (reg *RegLayer) SerializeTo(b gopacket.SerializeBuffer, opts
    gopacket.SerializeOptions) error]: the bytes of [b] on return and the
    error returned.  [opts] is not used by the body. *)
Definition SerializeTo (reg : RegLayer) (b : list byte)
  : go (list byte * option error) :=
  let (bytes, err) := AppendBytes b (length (RegOps reg) * 4)%nat in
  match err with
  | Some e => Done (b, Some e)
  | None =>
      bytes' <- Serialize reg bytes ;;
      Done (b ++ bytes', None)
  end.

End SerializeTo.

End Layers.

(** ** pkg/srv/control: the API server *)

Module Control.

Definition ApiPort : Z := 8000.

(** net/http status codes *)
Definition StatusBadRequest : Z := 400.
Definition StatusNotFound : Z := 404.
Definition StatusBadGateway : Z := 502.

Record RegHex : Type := mkRegHex {
  Addr : string;    (* hexadecimal *)
  Value : string    (* hexadecimal *)
}.

(** What a handler leaves in its [http.ResponseWriter]. *)
Inductive Response : Type :=
| NothingWritten                        (* net/http answers 200, empty body *)
| HttpError (err : error) (code : Z).   (* http.Error(w, err.Error(), code) *)

Section ApiServer.

(** The state of the hardware behind the device handles. *)
Variable World : Type.

(** [layers.Reg] and its method [Hex], which returns the address and the
    value in hexadecimal; both are declared outside the files modelled
    here. *)
Variable Reg : Type.
Variable Hex : Reg -> string * string.

(** [ifc.Device]: the methods the handlers call.  A Go result
    [(v, nil)] is [inl v] and [(nil, err)] is [inr err]. *)
Record Device : Type := mkDevice {
  RegRead : Z -> World -> (Reg + error) * World;
  RegReadAll : World -> (list Reg + error) * World;
  RegWrite : Reg -> World -> option error * World;
  MStreamStart : World -> option error * World;
  MStreamStop : World -> option error * World
}.

(** [ifc.ControlServer]: the device registry.  [GetAllDevices] is the
    sequence that [range] goes through. *)
Record ControlServer : Type := mkControlServer {
  GetDeviceByName : string -> Device + error;
  GetAllDevices : list Device
}.

(** The calls a handler makes on its collaborators, in the order made. *)
Inductive Method : Type :=
| CallRegRead (addr : Z)
| CallRegReadAll
| CallRegWrite (reg : Reg)
| CallMStreamStart
| CallMStreamStop.

Inductive Event : Type :=
| Registry_GetDeviceByName (name : string)
| Registry_GetAllDevices
| Device_call (d : Device) (m : Method) (err : option error).

Record State : Type := mkState {
  world : World;
  trace : list Event
}.

(** The state monad of a request. *)
Definition Api (A : Type) : Type := State -> A * State.

Definition ret {A : Type} (a : A) : Api A := fun st => (a, st).

Definition bind {A B : Type} (m : Api A) (k : A -> Api B) : Api B :=
  fun st => let (a, st') := m st in k a st'.

Definition emit (e : Event) : Api unit :=
  fun st => (tt, {| world := world st; trace := trace st ++ [e] |}).

Definition on_world {A : Type} (f : World -> A * World) : Api A :=
  fun st => let (a, w) := f (world st) in
            (a, {| world := w; trace := trace st |}).

Local Notation "x <~ m ;; k" := (bind m (fun x => k))
  (at level 61, m at next level, right associativity).
Local Notation "m ;;; k" := (bind m (fun _ => k))
  (at level 61, right associativity).

Definition error_of {A : Type} (r : A + error) : option error :=
  match r with
  | inl _ => None
  | inr err => Some err
  end.

Section Handlers.

(** [s.ctrl] *)
Variable ctrl : ControlServer.

Definition ctrl_GetDeviceByName (name : string) : Api (Device + error) :=
  emit (Registry_GetDeviceByName name) ;;;
  ret (GetDeviceByName ctrl name).

Definition ctrl_GetAllDevices : Api (list Device) :=
  emit Registry_GetAllDevices ;;;
  ret (GetAllDevices ctrl).

Definition call_RegRead (d : Device) (addr : Z) : Api (Reg + error) :=
  r <~ on_world (RegRead d addr) ;;
  emit (Device_call d (CallRegRead addr) (error_of r)) ;;;
  ret r.

Definition call_RegReadAll (d : Device) : Api (list Reg + error) :=
  r <~ on_world (RegReadAll d) ;;
  emit (Device_call d CallRegReadAll (error_of r)) ;;;
  ret r.

Definition call_MStreamStart (d : Device) : Api (option error) :=
  err <~ on_world (MStreamStart d) ;;
  emit (Device_call d CallMStreamStart err) ;;;
  ret err.

Definition call_MStreamStop (d : Device) : Api (option error) :=
  err <~ on_world (MStreamStop d) ;;
  emit (Device_call d CallMStreamStop err) ;;;
  ret err.

(** [func (s *ApiServer) regReadHex(addr uint16, device string)],
    which returns a [*RegHex] and an [error]. *)
Definition regReadHex (addr : Z) (device : string)
  : Api (RegHex + error) :=
  r <~ ctrl_GetDeviceByName device ;;
  match r with
  | inr err => ret (inr err)
  | inl d =>
      r' <~ call_RegRead d addr ;;
      match r' with
      | inr err => ret (inr err)
      | inl reg =>
          let (hexAddr, hexValue) := Hex reg in
          ret (inl {| Addr := hexAddr; Value := hexValue |})
      end
  end.

(** [for _, reg := range regs { ... regsHex = append(regsHex, ...) }] *)
Fixpoint regReadAllHex_range (regs : list Reg) (regsHex : list RegHex)
  : list RegHex :=
  match regs with
  | [] => regsHex
  | reg :: rest =>
      let (hexAddr, hexValue) := Hex reg in
      regReadAllHex_range rest
        (regsHex ++ [{| Addr := hexAddr; Value := hexValue |}])
  end.

(** [func (s *ApiServer) regReadAllHex(device string)], which returns
    a [[]*RegHex] and an [error]. *)
Definition regReadAllHex (device : string)
  : Api (list RegHex + error) :=
  r <~ ctrl_GetDeviceByName device ;;
  match r with
  | inr err => ret (inr err)
  | inl d =>
      r' <~ call_RegReadAll d ;;
      match r' with
      | inr err => ret (inr err)
      | inl regs => ret (inl (regReadAllHex_range regs []))
      end
  end.

Definition wrongAction : error :=
  ErrUnknownOperation "Wrong MStream action. Must be one of start/stop".

(** [func (s *ApiServer) handleMStreamAction() http.HandlerFunc]: the
    handler, applied to the route variables [mux.Vars(r)] (a missing key
    reads as the empty string). *)
Definition handleMStreamAction (vars : string -> string) : Api Response :=
  r <~ ctrl_GetDeviceByName (vars "device"%string) ;;
  match r with
  | inr err => ret (HttpError err StatusNotFound)
  | inl device =>
      if String.eqb (vars "action"%string) "start" then
        err <~ call_MStreamStart device ;;
        match err with
        | Some e => ret (HttpError e StatusBadGateway)
        | None => ret NothingWritten
        end
      else if String.eqb (vars "action"%string) "stop" then
        err <~ call_MStreamStop device ;;
        match err with
        | Some e => ret (HttpError e StatusBadGateway)
        | None => ret NothingWritten
        end
      else
        ret (HttpError wrongAction StatusBadRequest)
  end.

(** [for _, d := range s.ctrl.GetAllDevices() { err := d.MStreamStart()
    ... return }]: the error that made the handler return, if any. *)
Fixpoint range_MStreamStart (ds : list Device) : Api (option error) :=
  match ds with
  | [] => ret None
  | d :: rest =>
      err <~ call_MStreamStart d ;;
      match err with
      | Some e => ret (Some e)
      | None => range_MStreamStart rest
      end
  end.

Fixpoint range_MStreamStop (ds : list Device) : Api (option error) :=
  match ds with
  | [] => ret None
  | d :: rest =>
      err <~ call_MStreamStop d ;;
      match err with
      | Some e => ret (Some e)
      | None => range_MStreamStop rest
      end
  end.

(** [func (s *ApiServer) handleMStreamActionAll() http.HandlerFunc] *)
Definition handleMStreamActionAll (vars : string -> string)
  : Api Response :=
  if String.eqb (vars "action"%string) "start" then
    ds <~ ctrl_GetAllDevices ;;
    err <~ range_MStreamStart ds ;;
    match err with
    | Some e => ret (HttpError e StatusBadGateway)
    | None => ret NothingWritten
    end
  else if String.eqb (vars "action"%string) "stop" then
    ds <~ ctrl_GetAllDevices ;;
    err <~ range_MStreamStop ds ;;
    match err with
    | Some e => ret (HttpError e StatusBadGateway)
    | None => ret NothingWritten
    end
  else
    ret (HttpError wrongAction StatusBadRequest).

End Handlers.

End ApiServer.

Arguments mkDevice {World Reg}.
Arguments RegRead {World Reg} d addr w.
Arguments RegReadAll {World Reg} d w.
Arguments RegWrite {World Reg} d reg w.
Arguments MStreamStart {World Reg} d w.
Arguments MStreamStop {World Reg} d w.
Arguments mkControlServer {World Reg}.
Arguments GetDeviceByName {World Reg} c name.
Arguments GetAllDevices {World Reg} c.
Arguments CallRegRead {Reg} addr.
Arguments CallRegReadAll {Reg}.
Arguments CallRegWrite {Reg} reg.
Arguments CallMStreamStart {Reg}.
Arguments CallMStreamStop {Reg}.
Arguments Registry_GetDeviceByName {World Reg} name.
Arguments Registry_GetAllDevices {World Reg}.
Arguments Device_call {World Reg} d m err.
Arguments mkState {World Reg}.
Arguments world {World Reg} s.
Arguments trace {World Reg} s.
Arguments regReadHex {World Reg} Hex ctrl addr device st.
Arguments regReadAllHex_range {Reg} Hex regs regsHex.
Arguments regReadAllHex {World Reg} Hex ctrl device st.
Arguments handleMStreamAction {World Reg} ctrl vars st.
Arguments range_MStreamStart {World Reg} ds st.
Arguments range_MStreamStop {World Reg} ds st.
Arguments handleMStreamActionAll {World Reg} ctrl vars st.

End Control.

(** ** pkg/srv/control: the register handlers *)

Module RegHandlers.

Import Control.

(** What a handler that answers with a JSON body leaves in its
    [http.ResponseWriter]. *)
Inductive Written (A : Type) : Type :=
| Encoded (a : A)                   (* json.NewEncoder(w).Encode(a) *)
| Failed (err : error) (code : Z).  (* http.Error(w, err.Error(), code) *)
Arguments Encoded {A} a.
Arguments Failed {A} err code.

Section Handlers.

Variable World : Type.
Variable Reg : Type.
Variable Hex : Reg -> string * string.

(** [strconv.ParseUint(s, base, bitSize)], of the Go library. *)
Variable ParseUint : string -> Z -> Z -> Z + error.

(** The body of a request, and [json.NewDecoder(r.Body).Decode(regHex)] on
    a fresh [RegHex], of the Go library. *)
Variable Body : Type.
Variable json_Decode : Body -> RegHex + error.

(** [layers.NewRegFromHex], declared outside the files modelled here. *)
Variable NewRegFromHex : string -> string -> Reg + error.

(** [s.ctrl] *)
Variable ctrl : ControlServer World Reg.

Local Notation "x <~ m ;; k" := (bind World Reg m (fun x => k))
  (at level 61, m at next level, right associativity).
Local Notation "m ;;; k" := (bind World Reg m (fun _ => k))
  (at level 61, right associativity).

Definition call_RegWrite (d : Device World Reg) (reg : Reg)
  : Api World Reg (option error) :=
  err <~ on_world World Reg (RegWrite d reg) ;;
  emit World Reg (Device_call d (CallRegWrite reg) err) ;;;
  ret World Reg err.

(** [func (s *ApiServer) handleRegRead() http.HandlerFunc], applied to the
    route variables. *)
Definition handleRegRead (vars : string -> string)
  : Api World Reg (Written RegHex) :=
  match ParseUint (vars "addr"%string) 0 16 with
  | inr err => ret World Reg (Failed err StatusBadRequest)
  | inl addr =>
      r <~ regReadHex Hex ctrl (uint16 addr) (vars "device"%string) ;;
      match r with
      | inr err => ret World Reg (Failed err StatusNotFound)
      | inl regHex => ret World Reg (Encoded regHex)
      end
  end.

(** [func (s *ApiServer) handleRegReadAll() http.HandlerFunc] *)
Definition handleRegReadAll (vars : string -> string)
  : Api World Reg (Written (list RegHex)) :=
  r <~ regReadAllHex Hex ctrl (vars "device"%string) ;;
  match r with
  | inr err => ret World Reg (Failed err StatusNotFound)
  | inl regsHex => ret World Reg (Encoded regsHex)
  end.

(** [func (s *ApiServer) handleRegWrite() http.HandlerFunc], applied to the
    route variables and the body of the request. *)
Definition handleRegWrite (vars : string -> string) (body : Body)
  : Api World Reg Response :=
  match json_Decode body with
  | inr err => ret World Reg (HttpError err StatusBadRequest)
  | inl regHex =>
      match NewRegFromHex (Addr regHex) (Value regHex) with
      | inr err => ret World Reg (HttpError err StatusBadRequest)
      | inl reg =>
          r <~ ctrl_GetDeviceByName World Reg ctrl (vars "device"%string) ;;
          match r with
          | inr err => ret World Reg (HttpError err StatusNotFound)
          | inl device =>
              err <~ call_RegWrite device reg ;;
              match err with
              | Some e => ret World Reg (HttpError e StatusBadGateway)
              | None => ret World Reg NothingWritten
              end
          end
      end
  end.

End Handlers.

Arguments call_RegWrite {World Reg} d reg st.
Arguments handleRegRead {World Reg} Hex ParseUint ctrl vars st.
Arguments handleRegReadAll {World Reg} Hex ctrl vars st.
Arguments handleRegWrite {World Reg Body} json_Decode NewRegFromHex ctrl
  vars body st.

End RegHandlers.

(** * Definitions used to state the properties *)

Import Layers.
Import Control.

(** ** Words and frames *)

(** The little-endian value of four bytes. *)
Definition le32 (b0 b1 b2 b3 : byte) : Z :=
  byte.unsigned b0 + byte.unsigned b1 * 2 ^ 8
  + byte.unsigned b2 * 2 ^ 16 + byte.unsigned b3 * 2 ^ 24.

(** The four bytes [PutUint32] writes for [v]. *)
Definition wireBytes (v : Z) : list byte :=
  [byte.of_Z v; byte.of_Z (Z.shiftr v 8);
   byte.of_Z (Z.shiftr v 16); byte.of_Z (Z.shiftr v 24)].

(** The frame of a sequence of operations: one word each, in order. *)
Definition frameOf (ops : list RegOp) : list byte :=
  flat_map (fun op => wireBytes (wordOf op)) ops.

(** The little-endian words of a buffer, four bytes at a time from the
    start; a last group of fewer than four bytes gives no word. *)
Fixpoint wordsOf (data : list byte) : list Z :=
  match data with
  | b0 :: b1 :: b2 :: b3 :: rest => le32 b0 b1 b2 b3 :: wordsOf rest
  | _ => []
  end.

(** What decoding makes of an encoded operation: the register number keeps
    its low 15 bits, and a read comes back with value 0. *)
Definition onWire (op : RegOp) : RegOp :=
  {| Read := Read op;
     RegNum := RegNum op mod 2 ^ 15;
     RegValue := if Read op then 0 else RegValue op |}.

(** A layer that holds the operations [ops] and nothing else. *)
Definition layerOf (ops : list RegOp) : RegLayer :=
  {| Contents := []; Payload := []; RegOps := ops |}.

(** ** Broadcasts *)

Section ApiServerSpec.

Variable World : Type.
Variable Reg : Type.
Variable Hex : Reg -> string * string.

Let Device := Device World Reg.
Let State := State World Reg.

(** The presentation form of one register. *)
Definition hexOf (reg : Reg) : RegHex :=
  {| Addr := fst (Hex reg); Value := snd (Hex reg) |}.

(** A device command, as the handlers call it. *)
Definition Command : Type := Device -> World -> option error * World.

(** The world after the command has run on each device of [ds] in turn. *)
Fixpoint worldAfter (command : Command) (ds : list Device) (w : World)
  : World :=
  match ds with
  | [] => w
  | d :: rest => worldAfter command rest (snd (command d w))
  end.

(** The command succeeds on each device of [ds], run in turn from [w]. *)
Fixpoint allSucceed (command : Command) (ds : list Device) (w : World)
  : Prop :=
  match ds with
  | [] => True
  | d :: rest =>
      fst (command d w) = None /\ allSucceed command rest (snd (command d w))
  end.

(** What a broadcast of [command], traced as [m], does over [ds] from the
    state [st]: either every device succeeds and each is called once, in
    order, or the devices up to the first failing one are called once, in
    order, and none after it. *)
Definition failFast (command : Command) (m : Method Reg)
  (ds : list Device) (st : State) (err : option error) (st' : State)
  : Prop :=
  (err = None
   /\ allSucceed command ds (world st)
   /\ world st' = worldAfter command ds (world st)
   /\ trace st' = trace st ++ map (fun d => Device_call d m None) ds)
  \/ (exists (pre : list Device) (d : Device) (post : list Device)
             (e : error),
        ds = pre ++ d :: post
        /\ allSucceed command pre (world st)
        /\ fst (command d (worldAfter command pre (world st))) = Some e
        /\ err = Some e
        /\ world st' = worldAfter command (pre ++ [d]) (world st)
        /\ trace st' = trace st
                       ++ map (fun d => Device_call d m None) pre
                       ++ [Device_call d m (Some e)]).

End ApiServerSpec.

Arguments hexOf {Reg} Hex reg.
Arguments worldAfter {World Reg} command ds w.
Arguments allSucceed {World Reg} command ds w.
Arguments failFast {World Reg} command m ds st err st'.

(** ** An in-memory control server *)

(** A device double.  The world is the list of the names of the devices
    that are streaming; a register is an address and a value.  A broken
    device fails every command with its name as the message. *)
Definition fakeDevice (name : string) (broken : bool)
  : Device (list string) (Z * Z) :=
  {| RegRead := fun addr w =>
       if broken then (inr (ErrCollaborator name), w)
       else (inl (addr, 0), w);
     RegReadAll := fun w =>
       if broken then (inr (ErrCollaborator name), w)
       else (inl [(0, 5); (1, 9)], w);
     RegWrite := fun reg w =>
       if broken then (Some (ErrCollaborator name), w) else (None, w);
     MStreamStart := fun w =>
       if broken then (Some (ErrCollaborator name), w)
       else (None, name :: w);
     MStreamStop := fun w =>
       if broken then (Some (ErrCollaborator name), w)
       else (None, List.remove string_dec name w) |}.

Definition adc0 : Device (list string) (Z * Z) := fakeDevice "adc0" false.
Definition adc1 : Device (list string) (Z * Z) := fakeDevice "adc1" true.
Definition adc2 : Device (list string) (Z * Z) := fakeDevice "adc2" false.

(** A registry of three devices, the second of which is broken. *)
Definition fakeControlServer : ControlServer (list string) (Z * Z) :=
  {| GetDeviceByName := fun name =>
       if String.eqb name "adc0" then inl adc0
       else if String.eqb name "adc1" then inl adc1
       else if String.eqb name "adc2" then inl adc2
       else inr (ErrCollaborator "unknown device");
     GetAllDevices := [adc0; adc1; adc2] |}.

Definition fakeHex (reg : Z * Z) : string * string :=
  (HexString.of_Z (fst reg), HexString.of_Z (snd reg)).

(** The route variables of a request. *)
Definition routeVars (action device : string) (key : string) : string :=
  if String.eqb key "action" then action
  else if String.eqb key "device" then device
  else EmptyString.

(** The state before the request: nothing streams, nothing was called. *)
Definition idle : State (list string) (Z * Z) :=
  {| world := []; trace := [] |}.

(** Doubles of the collaborators of the register handlers.  An address is
    accepted when it starts with [0x] and fits the size asked for; a body is
    a decoded [RegHex], or nothing when the JSON is malformed. *)
Definition fakeParseUint (s : string) (base bitSize : Z) : Z + error :=
  if String.prefix "0x" s then
    if HexString.to_Z s <? 2 ^ bitSize then inl (HexString.to_Z s)
    else inr (ErrCollaborator "value out of range")
  else inr (ErrCollaborator "invalid syntax").

Definition fakeDecode (body : option RegHex) : RegHex + error :=
  match body with
  | Some regHex => inl regHex
  | None => inr (ErrCollaborator "unexpected end of JSON input")
  end.

Definition fakeNewRegFromHex (addr value : string) : (Z * Z) + error :=
  if String.prefix "0x" addr && String.prefix "0x" value
  then inl (HexString.to_Z addr, HexString.to_Z value)
  else inr (ErrCollaborator "invalid syntax").

(** The route variables of a register request. *)
Definition regVars (device addr : string) (key : string) : string :=
  if String.eqb key "device" then device
  else if String.eqb key "addr" then addr
  else EmptyString.

(** A registry without devices, and one whose only device is [adc0]. *)
Definition emptyControlServer : ControlServer (list string) (Z * Z) :=
  {| GetDeviceByName := fun name => inr (ErrCollaborator "unknown device");
     GetAllDevices := [] |}.

Definition oneDeviceControlServer : ControlServer (list string) (Z * Z) :=
  {| GetDeviceByName := fun name =>
       if String.eqb name "adc0" then inl adc0
       else inr (ErrCollaborator "unknown device");
     GetAllDevices := [adc0] |}.

(** * Properties *)

(** ** Bit operations as arithmetic *)

Lemma lor_disjoint_add (a b k : Z) :
  0 <= k -> 0 <= a < 2 ^ k -> Z.lor a (b * 2 ^ k) = a + b * 2 ^ k.
Proof.
  intros Hk Ha.
  assert (Hland : Z.land a (b * 2 ^ k) = 0).
  { apply Z.bits_inj'. intros n Hn.
    rewrite Z.land_spec, Z.bits_0.
    destruct (Z.ltb_spec n k) as [Hlt | Hge].
    - rewrite Z.mul_pow2_bits_low by assumption. apply andb_false_r.
    - rewrite <- (Z.mod_small a (2 ^ k)) by assumption.
      rewrite Z.mod_pow2_bits_high by lia. reflexivity. }
  rewrite Z.add_nocarry_lxor by assumption.
  symmetry. apply Z.lxor_lor. assumption.
Qed.

(** Division and remainder by the powers of two of the word layout. *)
Ltac fields_arith :=
  change (2 ^ 1) with 2 in *; change (2 ^ 7) with 128 in *;
  change (2 ^ 8) with 256 in *; change (2 ^ 15) with 32768 in *;
  change (2 ^ 16) with 65536 in *; change (2 ^ 24) with 16777216 in *;
  change (2 ^ 31) with 2147483648 in *;
  change (2 ^ 32) with 4294967296 in *;
  Z.div_mod_to_equations; lia.

Lemma uint32_small (z : Z) : 0 <= z < 2 ^ 32 -> uint32 z = z.
Proof. intros H. unfold uint32. apply Z.mod_small. assumption. Qed.

Lemma uint16_small (z : Z) : 0 <= z < 2 ^ 16 -> uint16 z = z.
Proof. intros H. unfold uint16. apply Z.mod_small. assumption. Qed.

Lemma le32_range (b0 b1 b2 b3 : byte) : 0 <= le32 b0 b1 b2 b3 < 2 ^ 32.
Proof.
  unfold le32.
  pose proof (byte.unsigned_range b0). pose proof (byte.unsigned_range b1).
  pose proof (byte.unsigned_range b2). pose proof (byte.unsigned_range b3).
  lia.
Qed.

Lemma Uint32_le32 (b0 b1 b2 b3 : byte) (rest : list byte) :
  Uint32 (b0 :: b1 :: b2 :: b3 :: rest) = Done (le32 b0 b1 b2 b3).
Proof.
  unfold Uint32, le32. f_equal.
  pose proof (byte.unsigned_range b0). pose proof (byte.unsigned_range b1).
  pose proof (byte.unsigned_range b2). pose proof (byte.unsigned_range b3).
  rewrite !Z.shiftl_mul_pow2 by lia.
  rewrite !uint32_small by lia.
  rewrite (lor_disjoint_add _ _ 8) by lia.
  rewrite (lor_disjoint_add _ _ 16) by lia.
  rewrite (lor_disjoint_add _ _ 24) by lia.
  reflexivity.
Qed.

Lemma le32_of_Z (v : Z) :
  0 <= v < 2 ^ 32 ->
  le32 (byte.of_Z v) (byte.of_Z (Z.shiftr v 8))
       (byte.of_Z (Z.shiftr v 16)) (byte.of_Z (Z.shiftr v 24)) = v.
Proof.
  intros Hv. unfold le32.
  rewrite !byte.unsigned_of_Z. unfold byte.wrap.
  rewrite !Z.shiftr_div_pow2 by lia.
  fields_arith.
Qed.

(** ** The word codec *)

(** The layout of the wire word: bit 31 is the read flag, bits 30..16 the
    low 15 bits of the register number, bits 15..0 the value of a write. *)
Lemma wordOf_layout (op : RegOp) :
  RegOp_wf op ->
  wordOf op = (if Read op then 2 ^ 31 else 0)
              + (RegNum op mod 2 ^ 15) * 2 ^ 16
              + (if Read op then 0 else RegValue op).
Proof.
  intros [Hn Hv]. unfold wordOf.
  rewrite (uint32_small (RegNum op)) by lia.
  change 0x7fff with (Z.ones 15). rewrite Z.land_ones by lia.
  rewrite Z.shiftl_mul_pow2 by lia.
  pose proof (Z.mod_pos_bound (RegNum op) (2 ^ 15) eq_refl) as Hm.
  rewrite (uint32_small (_ * _)) by lia.
  destruct (Read op).
  - rewrite Z.lor_comm.
    change 0x80000000 with (1 * 2 ^ 31).
    rewrite lor_disjoint_add by lia. lia.
  - rewrite Z.lor_0_l. rewrite (uint32_small (RegValue op)) by lia.
    rewrite Z.lor_comm. rewrite lor_disjoint_add by lia. lia.
Qed.

Lemma wordOf_range (op : RegOp) :
  RegOp_wf op -> 0 <= wordOf op < 2 ^ 32.
Proof.
  intros Hwf. rewrite wordOf_layout by assumption.
  destruct Hwf as [Hn Hv].
  pose proof (Z.mod_pos_bound (RegNum op) (2 ^ 15) eq_refl) as Hm.
  destruct (Read op); lia.
Qed.

Lemma regOpOf_layout (word : Z) :
  0 <= word < 2 ^ 32 ->
  regOpOf word = {| Read := 2 ^ 31 <=? word;
                    RegNum := (word / 2 ^ 16) mod 2 ^ 15;
                    RegValue := word mod 2 ^ 16 |}.
Proof.
  intros Hw. unfold regOpOf.
  rewrite !Z.shiftr_land.
  change (Z.shiftr 0x80000000 31) with (Z.ones 1).
  change (Z.shiftr 0x7fff0000 16) with (Z.ones 15).
  change 0x0000ffff with (Z.ones 16).
  rewrite !Z.land_ones by lia.
  rewrite !Z.shiftr_div_pow2 by lia.
  unfold uint16, int8.
  rewrite (Z.mod_mod word) by lia.
  f_equal.
  - destruct (Z.leb_spec (2 ^ 31) word);
      destruct (Z.eqb_spec ((word / 2 ^ 31 mod 2 ^ 1 + 2 ^ 7) mod 2 ^ 8
                            - 2 ^ 7) 1);
      try reflexivity; exfalso; fields_arith.
  - apply Z.mod_small.
    pose proof (Z.mod_pos_bound (word / 2 ^ 16) (2 ^ 15) eq_refl). lia.
Qed.

Lemma regOpOf_wordOf (op : RegOp) :
  RegOp_wf op -> regOpOf (wordOf op) = onWire op.
Proof.
  intros Hwf.
  rewrite regOpOf_layout by (apply wordOf_range; assumption).
  rewrite wordOf_layout by assumption.
  destruct Hwf as [Hn Hv]. unfold onWire.
  pose proof (Z.mod_pos_bound (RegNum op) (2 ^ 15) eq_refl) as Hm.
  destruct (Read op); f_equal;
    try (apply Z.leb_le; lia); try (apply Z.leb_gt; lia);
    fields_arith.
Qed.

(** ** Serialization of a frame *)

Lemma wireBytes_length (v : Z) : length (wireBytes v) = 4%nat.
Proof. reflexivity. Qed.

Lemma frameOf_length (ops : list RegOp) :
  length (frameOf ops) = (4 * length ops)%nat.
Proof.
  induction ops as [| op rest IH]; simpl.
  - reflexivity.
  - rewrite IH. lia.
Qed.

Lemma firstn_4_skipn (s : list byte) (lo : nat) :
  (lo + 4 <= length s)%nat ->
  exists b0 b1 b2 b3,
    skipn lo s = b0 :: b1 :: b2 :: b3 :: skipn (lo + 4) s.
Proof.
  intros Hlen.
  assert (Hl : (4 <= length (skipn lo s))%nat) by (rewrite length_skipn; lia).
  replace (lo + 4)%nat with (4 + lo)%nat by lia.
  rewrite <- skipn_skipn.
  destruct (skipn lo s) as [| b0 [| b1 [| b2 [| b3 rest]]]];
    simpl in Hl; try lia.
  exists b0, b1, b2, b3. reflexivity.
Qed.

Lemma slice_word (s : list byte) (lo : nat) :
  (lo + 4 <= length s)%nat ->
  exists b0 b1 b2 b3,
    slice s lo (lo + 4) = Done [b0; b1; b2; b3]
    /\ skipn lo s = b0 :: b1 :: b2 :: b3 :: skipn (lo + 4) s.
Proof.
  intros Hlen.
  destruct (firstn_4_skipn s lo Hlen) as (b0 & b1 & b2 & b3 & Hs).
  exists b0, b1, b2, b3. split; [| assumption].
  unfold slice.
  replace (lo <=? lo + 4)%nat with true by (symmetry; apply Nat.leb_le; lia).
  replace (lo + 4 <=? length s)%nat with true
    by (symmetry; apply Nat.leb_le; lia).
  simpl. replace (lo + 4 - lo)%nat with 4%nat by lia.
  rewrite Hs. reflexivity.
Qed.


Lemma Serialize_range_frame (ops : list RegOp) :
  forall (i : nat) (buf : list byte),
    ((i + length ops) * 4 <= length buf)%nat ->
    Serialize_range i ops buf
    = Done (firstn (i * 4) buf ++ frameOf ops
            ++ skipn ((i + length ops) * 4) buf).
Proof.
  induction ops as [| op rest IH]; intros i buf Hlen; simpl in *.
  - rewrite Nat.add_0_r. rewrite firstn_skipn. reflexivity.
  - destruct (slice_word buf (i * 4)) as (b0 & b1 & b2 & b3 & Hsl & Hsk);
      [lia |].
    rewrite Hsl. simpl.
    unfold store. simpl length.
    fold (wireBytes (wordOf op)).
    set (buf' := firstn (i * 4) buf ++ wireBytes (wordOf op)
                 ++ skipn (i * 4 + 4) buf).
    assert (Hfl : length (firstn (i * 4) buf) = (i * 4)%nat)
      by (apply firstn_length_le; lia).
    assert (Hlen' : length buf' = length buf).
    { unfold buf'. rewrite !length_app, Hfl, length_skipn. simpl. lia. }
    rewrite IH by lia.
    f_equal.
    assert (Hfirst : firstn (S i * 4) buf'
                     = firstn (i * 4) buf ++ wireBytes (wordOf op)).
    { unfold buf'. rewrite app_assoc.
      rewrite firstn_app.
      rewrite firstn_all2 by (rewrite length_app, Hfl, wireBytes_length; lia).
      rewrite length_app, Hfl, wireBytes_length.
      replace (S i * 4 - (i * 4 + 4))%nat with 0%nat by lia.
      rewrite firstn_0. apply app_nil_r. }
    assert (Hskip : skipn ((S i + length rest) * 4) buf'
                    = skipn ((i + S (length rest)) * 4) buf).
    { unfold buf'. rewrite app_assoc.
      rewrite skipn_app.
      rewrite skipn_all2 by (rewrite length_app, Hfl, wireBytes_length; lia).
      rewrite length_app, Hfl, wireBytes_length.
      rewrite skipn_skipn. rewrite app_nil_l. f_equal. lia. }
    rewrite Hfirst, Hskip. rewrite <- !app_assoc. reflexivity.
Qed.

Lemma Serialize_frame (reg : RegLayer) (buf : list byte) :
  (4 * length (RegOps reg) <= length buf)%nat ->
  Serialize reg buf
  = Done (frameOf (RegOps reg) ++ skipn (4 * length (RegOps reg)) buf).
Proof.
  intros Hlen. unfold Serialize.
  rewrite Serialize_range_frame by lia.
  simpl. f_equal. f_equal. f_equal. lia.
Qed.



(** The bytes of word [i] of a frame. *)
Lemma frameOf_word (ops : list RegOp) :
  forall (i : nat) (op : RegOp),
    nth_error ops i = Some op ->
    firstn 4 (skipn (4 * i) (frameOf ops)) = wireBytes (wordOf op).
Proof.
  induction ops as [| op0 rest IH]; intros i op Hnth.
  - destruct i; discriminate.
  - destruct i as [| i].
    + injection Hnth as ->. reflexivity.
    + replace (4 * S i)%nat with (4 + 4 * i)%nat by lia.
      simpl in Hnth. apply (IH i op Hnth).
Qed.

(** ** Decoding of a frame *)

Lemma by_words (P : list byte -> Prop) :
  (forall l, (length l < 4)%nat -> P l) ->
  (forall b0 b1 b2 b3 rest, P rest -> P (b0 :: b1 :: b2 :: b3 :: rest)) ->
  forall l, P l.
Proof.
  intros Hshort Hword l.
  assert (H : forall n l, (length l <= n)%nat -> P l).
  { clear l. induction n as [| n IH]; intros l Hl.
    - apply Hshort. lia.
    - destruct l as [| b0 [| b1 [| b2 [| b3 rest]]]];
        try (apply Hshort; simpl; lia).
      apply Hword. apply IH. simpl in Hl. lia. }
  apply (H (length l)). lia.
Qed.

Lemma wordsOf_short (l : list byte) : (length l < 4)%nat -> wordsOf l = [].
Proof.
  intros Hl.
  destruct l as [| b0 [| b1 [| b2 [| b3 rest]]]]; try reflexivity.
  simpl in Hl. lia.
Qed.

Lemma wordsOf_length (data : list byte) :
  length (wordsOf data) = (length data / 4)%nat.
Proof.
  induction data as [l Hl | b0 b1 b2 b3 rest IH] using by_words.
  - rewrite wordsOf_short by assumption.
    rewrite Nat.div_small by assumption. reflexivity.
  - change (length (b0 :: b1 :: b2 :: b3 :: rest))
      with (1 * 4 + length rest)%nat.
    rewrite Nat.div_add_l by lia.
    simpl. rewrite IH. reflexivity.
Qed.

(** Word [i] is made of the bytes at offsets [4i .. 4i+3]. *)
Lemma wordsOf_nth (i : nat) :
  forall data : list byte,
    (4 * i + 4 <= length data)%nat ->
    nth_error (wordsOf data) i
    = Some (le32 (nth (4 * i) data Byte.x00)
                 (nth (4 * i + 1) data Byte.x00)
                 (nth (4 * i + 2) data Byte.x00)
                 (nth (4 * i + 3) data Byte.x00)).
Proof.
  induction i as [| i IH]; intros data Hlen;
    destruct data as [| b0 [| b1 [| b2 [| b3 rest]]]];
    simpl in Hlen; try lia.
  - reflexivity.
  - replace (4 * S i)%nat with (4 + 4 * i)%nat by lia.
    cbn [wordsOf nth_error].
    rewrite IH by lia. reflexivity.
Qed.

(** Bytes after the last whole word do not count. *)
Lemma wordsOf_whole (data : list byte) :
  wordsOf (firstn (4 * (length data / 4)) data) = wordsOf data.
Proof.
  induction data as [l Hl | b0 b1 b2 b3 rest IH] using by_words.
  - rewrite Nat.div_small by assumption.
    rewrite (wordsOf_short l) by assumption. reflexivity.
  - change (length (b0 :: b1 :: b2 :: b3 :: rest))
      with (1 * 4 + length rest)%nat.
    rewrite Nat.div_add_l by lia.
    replace (4 * (1 + length rest / 4))%nat
      with (4 + 4 * (length rest / 4))%nat by lia.
    cbn [Nat.add firstn wordsOf]. rewrite IH. reflexivity.
Qed.

Lemma wordsOf_trailing (data extra : list byte) :
  (length data mod 4 = 0)%nat -> (length extra < 4)%nat ->
  wordsOf (data ++ extra) = wordsOf data.
Proof.
  intros Hmod Hextra.
  induction data as [l Hl | b0 b1 b2 b3 rest IH] using by_words.
  - rewrite Nat.mod_small in Hmod by assumption.
    destruct l; [| discriminate].
    simpl. apply wordsOf_short. assumption.
  - cbn [app wordsOf]. rewrite IH; [reflexivity |].
    replace (length (b0 :: b1 :: b2 :: b3 :: rest))
      with (length rest + 1 * 4)%nat in Hmod by (simpl; lia).
    rewrite Nat.Div0.mod_add in Hmod. assumption.
Qed.

Lemma DecodeFromBytes_loop_words (n : nat) :
  forall (i : nat) (data : list byte) (ops : list RegOp),
    ((i + n) * 4 <= length data)%nat ->
    DecodeFromBytes_loop n i data ops
    = Done (ops ++ map regOpOf (firstn n (wordsOf (skipn (i * 4) data)))).
Proof.
  induction n as [| n IH]; intros i data ops Hlen.
  - simpl. rewrite app_nil_r. reflexivity.
  - cbn [DecodeFromBytes_loop]. rewrite Nat.add_0_r.
    destruct (slice_word data (i * 4)) as (b0 & b1 & b2 & b3 & Hsl & Hsk);
      [lia |].
    rewrite Hsl. cbn [go_bind]. rewrite Uint32_le32. cbn [go_bind].
    rewrite IH by lia.
    rewrite Hsk. cbn [wordsOf firstn map].
    replace (S i * 4)%nat with (i * 4 + 4)%nat by lia.
    rewrite <- app_assoc. reflexivity.
Qed.

Lemma slice_all (data : list byte) : slice data 0 (length data) = Done data.
Proof.
  unfold slice. simpl. rewrite Nat.leb_refl.
  rewrite Nat.sub_0_r, firstn_all. reflexivity.
Qed.

(** [DecodeFromBytes] in closed form. *)
Lemma DecodeFromBytes_words (reg : RegLayer) (data : list byte) :
  DecodeFromBytes reg data
  = Done ({| Contents := data; Payload := [];
             RegOps := RegOps reg ++ map regOpOf (wordsOf data) |}, None).
Proof.
  unfold DecodeFromBytes.
  rewrite slice_all. cbn [go_bind].
  rewrite DecodeFromBytes_loop_words
    by (pose proof (Nat.Div0.mul_div_le (length data) 4); lia).
  cbn [go_bind skipn Nat.mul].
  rewrite <- wordsOf_length. rewrite firstn_all. reflexivity.
Qed.

Lemma DecodeRegLayer_words (data : list byte) :
  DecodeRegLayer data
  = Done (Some {| Contents := data; Payload := [];
                  RegOps := map regOpOf (wordsOf data) |}, None).
Proof.
  unfold DecodeRegLayer. rewrite DecodeFromBytes_words. reflexivity.
Qed.

Lemma wordsOf_frameOf (ops : list RegOp) :
  Forall RegOp_wf ops -> wordsOf (frameOf ops) = map wordOf ops.
Proof.
  induction 1 as [| op rest Hwf _ IH].
  - reflexivity.
  - cbn [frameOf flat_map wireBytes app wordsOf map].
    fold (frameOf rest). rewrite IH.
    rewrite le32_of_Z by (apply wordOf_range; assumption).
    reflexivity.
Qed.

Lemma regOpOf_RegNum_range (word : Z) : 0 <= RegNum (regOpOf word) < 2 ^ 15.
Proof.
  unfold regOpOf. cbn [RegNum].
  rewrite Z.shiftr_land.
  change (Z.shiftr 0x7fff0000 16) with (Z.ones 15).
  rewrite Z.land_ones by lia.
  pose proof (Z.mod_pos_bound (Z.shiftr word 16) (2 ^ 15) eq_refl) as Hm.
  rewrite uint16_small by lia. assumption.
Qed.

Lemma onWire_in_range (op : RegOp) :
  RegOp_wf op -> RegNum op < 2 ^ 15 ->
  onWire op = {| Read := Read op; RegNum := RegNum op;
                 RegValue := if Read op then 0 else RegValue op |}.
Proof.
  intros [Hn _] Hlt. unfold onWire.
  rewrite Z.mod_small by lia. reflexivity.
Qed.

Lemma onWire_id (op : RegOp) :
  RegOp_wf op -> RegNum op < 2 ^ 15 ->
  (Read op = true -> RegValue op = 0) ->
  onWire op = op.
Proof.
  intros Hwf Hlt Hread. rewrite onWire_in_range by assumption.
  destruct op as [r n v]. cbn in *.
  destruct r; [rewrite Hread by reflexivity |]; reflexivity.
Qed.

(** ** Claims on the register layer *)

(** C1 (as amended).  [DecodeFromBytes] never fails: for every buffer it
    returns a nil error and [len(data)/4] operations, rounded down, where
    operation [i] is decoded from the bytes at offsets [4i .. 4i+3]; an
    empty buffer gives no operation. *)
Theorem DecodeFromBytes_words_in_byte_order (data : list byte) :
  exists ops : list RegOp,
    DecodeFromBytes emptyRegLayer data
    = Done ({| Contents := data; Payload := []; RegOps := ops |}, None)
    /\ length ops = (length data / 4)%nat
    /\ (forall i : nat,
          (4 * i + 4 <= length data)%nat ->
          nth_error ops i
          = Some (regOpOf (le32 (nth (4 * i) data Byte.x00)
                                (nth (4 * i + 1) data Byte.x00)
                                (nth (4 * i + 2) data Byte.x00)
                                (nth (4 * i + 3) data Byte.x00))))
    /\ (data = [] -> ops = []).
Proof.
  exists (map regOpOf (wordsOf data)). repeat split.
  - apply DecodeFromBytes_words.
  - rewrite length_map. apply wordsOf_length.
  - intros i Hi. rewrite nth_error_map, wordsOf_nth by assumption.
    reflexivity.
  - intros ->. reflexivity.
Qed.

(** C1, the claim as written fails: on a 3-byte buffer and on a 5-byte
    buffer [DecodeFromBytes] returns a nil error. *)
Lemma DecodeFromBytes_odd_length_no_error :
  DecodeFromBytes emptyRegLayer [Byte.x01; Byte.x02; Byte.x03]
  = Done ({| Contents := [Byte.x01; Byte.x02; Byte.x03];
             Payload := []; RegOps := [] |}, None)
  /\ DecodeFromBytes emptyRegLayer
       [Byte.xff; Byte.x00; Byte.x01; Byte.x00; Byte.x07]
     = Done ({| Contents := [Byte.xff; Byte.x00; Byte.x01; Byte.x00; Byte.x07];
                Payload := [];
                RegOps := [{| Read := false; RegNum := 1;
                              RegValue := 255 |}] |}, None)
  /\ ~ (exists (reg : RegLayer) (err : error),
          DecodeFromBytes emptyRegLayer [Byte.x01; Byte.x02; Byte.x03]
          = Done (reg, Some err)).
Proof.
  split; [reflexivity |]. split; [reflexivity |].
  intros (reg & err & H). discriminate H.
Qed.

(** C9.  [DecodeFromBytes] returns, with a nil error, on every buffer and
    every layer; it adds [len(data)/4] operations, rounded down, and the at
    most 3 bytes after the last whole word change nothing in them. *)
Theorem DecodeFromBytes_total (reg : RegLayer) (data : list byte) :
  let whole := firstn (4 * (length data / 4)) data in
  exists ops : list RegOp,
    DecodeFromBytes reg data
    = Done ({| Contents := data; Payload := [];
               RegOps := RegOps reg ++ ops |}, None)
    /\ length ops = (length data / 4)%nat
    /\ DecodeFromBytes reg whole
       = Done ({| Contents := whole; Payload := [];
                  RegOps := RegOps reg ++ ops |}, None)
    /\ (length data - length whole <= 3)%nat.
Proof.
  intros whole. exists (map regOpOf (wordsOf data)). repeat split.
  - apply DecodeFromBytes_words.
  - rewrite length_map. apply wordsOf_length.
  - rewrite DecodeFromBytes_words. unfold whole.
    rewrite wordsOf_whole. reflexivity.
  - unfold whole.
    pose proof (Nat.Div0.mul_div_le (length data) 4) as Hle.
    rewrite firstn_length_le by assumption.
    pose proof (Nat.div_mod_eq (length data) 4) as Heq.
    pose proof (Nat.mod_upper_bound (length data) 4) as Hlt.
    lia.
Qed.

(** C10.  Every operation that [DecodeFromBytes] adds has a register number
    below 2^15, whatever the bytes: the register number decoded from any
    word lies in that range, and the all-ones word gives 0x7fff. *)
Theorem DecodeFromBytes_RegNum_15_bits (reg : RegLayer) (data : list byte) :
  (exists ops : list RegOp,
     DecodeFromBytes reg data
     = Done ({| Contents := data; Payload := [];
                RegOps := RegOps reg ++ ops |}, None)
     /\ Forall (fun op => 0 <= RegNum op < 2 ^ 15) ops)
  /\ (forall word : Z, 0 <= RegNum (regOpOf word) < 2 ^ 15)
  /\ RegNum (regOpOf 0xffffffff) = 0x7fff.
Proof.
  split; [| split].
  - exists (map regOpOf (wordsOf data)). split.
    + apply DecodeFromBytes_words.
    + apply Forall_forall. intros op Hin.
      apply in_map_iff in Hin. destruct Hin as (word & <- & _).
      apply regOpOf_RegNum_range.
  - apply regOpOf_RegNum_range.
  - reflexivity.
Qed.

(** C2 (as amended).  For operations with fields in range, decoding the
    serialized buffer gives the operations back in order, a write field for
    field and a read with its number and value 0: a read's value is not put
    on the wire.  The result is the sequence itself when every read has
    value 0. *)
Theorem Serialize_DecodeFromBytes_roundtrip
  (ops : list RegOp) (buf : list byte) :
  Forall RegOp_wf ops ->
  Forall (fun op => RegNum op < 2 ^ 15) ops ->
  length buf = (4 * length ops)%nat ->
  exists frame : list byte,
    Serialize (layerOf ops) buf = Done frame
    /\ DecodeFromBytes emptyRegLayer frame
       = Done ({| Contents := frame; Payload := [];
                  RegOps := map (fun op =>
                                   {| Read := Read op; RegNum := RegNum op;
                                      RegValue := if Read op then 0
                                                  else RegValue op |}) ops |},
               None)
    /\ (Forall (fun op => Read op = true -> RegValue op = 0) ops ->
        DecodeFromBytes emptyRegLayer frame
        = Done ({| Contents := frame; Payload := []; RegOps := ops |}, None)).
Proof.
  intros Hwf Hrange Hlen.
  exists (frameOf ops).
  assert (Hser : Serialize (layerOf ops) buf = Done (frameOf ops)).
  { rewrite Serialize_frame by (cbn [layerOf RegOps]; lia).
    cbn [layerOf RegOps].
    rewrite skipn_all2 by lia. rewrite app_nil_r. reflexivity. }
  assert (Hdec : map regOpOf (wordsOf (frameOf ops)) = map onWire ops).
  { rewrite wordsOf_frameOf by assumption. rewrite map_map.
    apply map_ext_in. intros op Hin. apply regOpOf_wordOf.
    rewrite Forall_forall in Hwf. apply Hwf. assumption. }
  split; [exact Hser |].
  rewrite DecodeFromBytes_words. cbn [emptyRegLayer RegOps app].
  rewrite Hdec. split.
  - do 3 f_equal. apply map_ext_in. intros op Hin.
    rewrite Forall_forall in Hwf, Hrange.
    apply onWire_in_range; [apply Hwf | apply Hrange]; assumption.
  - intros Hreads. do 3 f_equal.
    rewrite <- (map_id ops) at 2.
    apply map_ext_in. intros op Hin.
    rewrite Forall_forall in Hwf, Hrange, Hreads.
    apply onWire_id; [apply Hwf | apply Hrange | apply Hreads]; assumption.
Qed.

Lemma Serialize_DecodeFromBytes_roundtrip_witness :
  let ops := [ {| Read := false; RegNum := 1; RegValue := 255 |};
               {| Read := true; RegNum := 0x1234; RegValue := 0 |} ] in
  let buf := repeat Byte.x00 8 in
  Forall RegOp_wf ops
  /\ Forall (fun op => RegNum op < 2 ^ 15) ops
  /\ length buf = (4 * length ops)%nat
  /\ exists frame : list byte,
       Serialize (layerOf ops) buf = Done frame
       /\ DecodeFromBytes emptyRegLayer frame
          = Done ({| Contents := frame; Payload := [];
                     RegOps := map (fun op =>
                                      {| Read := Read op; RegNum := RegNum op;
                                         RegValue := if Read op then 0
                                                     else RegValue op |})
                                   ops |},
                  None)
       /\ (Forall (fun op => Read op = true -> RegValue op = 0) ops ->
           DecodeFromBytes emptyRegLayer frame
           = Done ({| Contents := frame; Payload := []; RegOps := ops |},
                   None)).
Proof.
  intros ops buf.
  assert (Hwf : Forall RegOp_wf ops)
    by (repeat constructor; cbn; lia).
  assert (Hrange : Forall (fun op => RegNum op < 2 ^ 15) ops)
    by (repeat constructor; cbn; lia).
  assert (Hlen : length buf = (4 * length ops)%nat) by reflexivity.
  repeat split; try assumption.
  exact (Serialize_DecodeFromBytes_roundtrip ops buf Hwf Hrange Hlen).
Defined.

(** C2, the claim as written fails: a read with a value other than 0 has
    its fields in range and comes back with value 0. *)
Lemma roundtrip_loses_value_of_read :
  let op := {| Read := true; RegNum := 1; RegValue := 5 |} in
  RegNum op < 2 ^ 15 /\ RegValue op < 2 ^ 16
  /\ Serialize (layerOf [op]) (repeat Byte.x00 4)
     = Done [Byte.x00; Byte.x00; Byte.x01; Byte.x80]
  /\ DecodeFromBytes emptyRegLayer [Byte.x00; Byte.x00; Byte.x01; Byte.x80]
     = Done ({| Contents := [Byte.x00; Byte.x00; Byte.x01; Byte.x80];
                Payload := [];
                RegOps := [{| Read := true; RegNum := 1;
                              RegValue := 0 |}] |}, None)
  /\ [{| Read := true; RegNum := 1; RegValue := 0 |}] <> [op].
Proof.
  cbv zeta. repeat split; try reflexivity. discriminate.
Qed.

(** C5.  The read of register 0x1234, with any value, is written as the
    bytes 00 00 34 92, the little-endian word 0x92340000; the write of 0x00ff
    to register 0x0001 is written as ff 00 01 00, the word 0x000100ff. *)
Theorem Serialize_bit_layout (v : Z) (b0 b1 b2 b3 : byte) :
  wordOf {| Read := true; RegNum := 0x1234; RegValue := v |} = 0x92340000
  /\ Serialize (layerOf [{| Read := true; RegNum := 0x1234; RegValue := v |}])
       [b0; b1; b2; b3]
     = Done [Byte.x00; Byte.x00; Byte.x34; Byte.x92]
  /\ Uint32 [Byte.x00; Byte.x00; Byte.x34; Byte.x92] = Done 0x92340000
  /\ wordOf {| Read := false; RegNum := 0x0001; RegValue := 0x00ff |}
     = 0x000100ff
  /\ Serialize (layerOf [{| Read := false; RegNum := 0x0001;
                            RegValue := 0x00ff |}])
       [b0; b1; b2; b3]
     = Done [Byte.xff; Byte.x00; Byte.x01; Byte.x00]
  /\ Uint32 [Byte.xff; Byte.x00; Byte.x01; Byte.x00] = Done 0x000100ff.
Proof.
  repeat split; reflexivity.
Qed.

(** C6.  Encoding an operation never fails: [Serialize] writes one word
    into any buffer that has room for it.  Bit 31 of the word is the read
    flag, bits 30..16 are the low 15 bits of the register number (0x7fff for
    register number 0xffff), and bits 15..0 are the 16 bits of the value of a
    write, and zero for a read. *)
Theorem Serialize_truncates (op : RegOp) (b0 b1 b2 b3 : byte)
  (rest : list byte) :
  RegOp_wf op ->
  let word := wordOf op in
  Serialize (layerOf [op]) (b0 :: b1 :: b2 :: b3 :: rest)
  = Done (wireBytes word ++ rest)
  /\ Uint32 (wireBytes word ++ rest) = Done word
  /\ 0 <= word < 2 ^ 32
  /\ word / 2 ^ 31 = (if Read op then 1 else 0)
  /\ (word / 2 ^ 16) mod 2 ^ 15 = RegNum op mod 2 ^ 15
  /\ word mod 2 ^ 16 = (if Read op then 0 else RegValue op mod 2 ^ 16)
  /\ (RegNum op = 0xffff -> (word / 2 ^ 16) mod 2 ^ 15 = 0x7fff).
Proof.
  intros Hwf word.
  pose proof (wordOf_range op Hwf) as Hrange.
  pose proof (wordOf_layout op Hwf) as Hlayout.
  fold word in Hrange, Hlayout.
  destruct Hwf as [Hn Hv].
  pose proof (Z.mod_pos_bound (RegNum op) (2 ^ 15) eq_refl) as Hm.
  assert (Hnum : (word / 2 ^ 16) mod 2 ^ 15 = RegNum op mod 2 ^ 15).
  { rewrite Hlayout. destruct (Read op); fields_arith. }
  split; [| split; [| split; [| split; [| split; [| split]]]]].
  - reflexivity.
  - unfold wireBytes. cbn [app]. rewrite Uint32_le32.
    rewrite le32_of_Z by assumption. reflexivity.
  - assumption.
  - rewrite Hlayout. destruct (Read op); fields_arith.
  - assumption.
  - rewrite Hlayout. rewrite (Z.mod_small (RegValue op)) by assumption.
    destruct (Read op); fields_arith.
  - intros Heq. rewrite Hnum, Heq. reflexivity.
Qed.

Lemma Serialize_truncates_witness :
  let op := {| Read := false; RegNum := 0xffff; RegValue := 0xabcd |} in
  let word := wordOf op in
  RegOp_wf op
  /\ Serialize (layerOf [op]) [Byte.x00; Byte.x00; Byte.x00; Byte.x00]
     = Done (wireBytes word ++ [])
  /\ Uint32 (wireBytes word ++ []) = Done word
  /\ 0 <= word < 2 ^ 32
  /\ word / 2 ^ 31 = (if Read op then 1 else 0)
  /\ (word / 2 ^ 16) mod 2 ^ 15 = RegNum op mod 2 ^ 15
  /\ word mod 2 ^ 16 = (if Read op then 0 else RegValue op mod 2 ^ 16)
  /\ (RegNum op = 0xffff -> (word / 2 ^ 16) mod 2 ^ 15 = 0x7fff).
Proof.
  intros op word.
  assert (Hwf : RegOp_wf op) by (unfold RegOp_wf; cbn; lia).
  split; [exact Hwf |].
  exact (Serialize_truncates op Byte.x00 Byte.x00 Byte.x00 Byte.x00 []
           Hwf).
Defined.

(** C7.  [Serialize] fills the first [4 * len(ops)] bytes of the buffer and
    leaves the rest as it was; the 4 bytes at offset [4i] are the word of
    operation [i].  [SerializeTo] appends these [4 * len(ops)] bytes to the
    buffer when [AppendBytes] succeeds, and returns the error of
    [AppendBytes] with the buffer as it was otherwise. *)
Theorem Serialize_frame_layout (reg : RegLayer) (buf : list byte) :
  (4 * length (RegOps reg) <= length buf)%nat ->
  exists frame : list byte,
    length frame = (4 * length (RegOps reg))%nat
    /\ Serialize reg buf
       = Done (frame ++ skipn (4 * length (RegOps reg)) buf)
    /\ (length buf = (4 * length (RegOps reg))%nat ->
        Serialize reg buf = Done frame)
    /\ (forall (i : nat) (op : RegOp),
          nth_error (RegOps reg) i = Some op ->
          firstn 4 (skipn (4 * i) frame) = wireBytes (wordOf op)
          /\ (RegOp_wf op ->
              Uint32 (firstn 4 (skipn (4 * i) frame)) = Done (wordOf op)))
    /\ (forall (AppendBytes_err : list byte -> nat -> option error)
               (AppendBytes_old : list byte -> nat -> nat -> byte)
               (b : list byte),
          match AppendBytes_err b (length (RegOps reg) * 4)%nat with
          | None =>
              SerializeTo AppendBytes_err AppendBytes_old reg b
              = Done (b ++ frame, None)
          | Some err =>
              SerializeTo AppendBytes_err AppendBytes_old reg b
              = Done (b, Some err)
          end).
Proof.
  intros Hlen. exists (frameOf (RegOps reg)).
  split; [| split; [| split; [| split]]].
  - apply frameOf_length.
  - apply Serialize_frame. assumption.
  - intros Heq. rewrite Serialize_frame by assumption.
    rewrite skipn_all2 by lia. rewrite app_nil_r. reflexivity.
  - intros i op Hnth.
    rewrite (frameOf_word _ _ _ Hnth). split; [reflexivity |].
    intros Hwf. unfold wireBytes. rewrite Uint32_le32.
    rewrite le32_of_Z by (apply wordOf_range; assumption). reflexivity.
  - intros AppendBytes_err AppendBytes_old b.
    unfold SerializeTo, AppendBytes.
    destruct (AppendBytes_err b (length (RegOps reg) * 4)%nat) as [err |].
    + reflexivity.
    + rewrite Serialize_frame by (rewrite length_map, length_seq; lia).
      cbn [go_bind].
      rewrite skipn_all2 by (rewrite length_map, length_seq; lia).
      rewrite app_nil_r. reflexivity.
Qed.

Lemma Serialize_frame_layout_witness :
  let reg := layerOf [ {| Read := true; RegNum := 0x1234; RegValue := 0 |};
                       {| Read := false; RegNum := 1; RegValue := 255 |} ] in
  let buf := repeat Byte.xaa 9 in
  (4 * length (RegOps reg) <= length buf)%nat
  /\ exists frame : list byte,
       length frame = (4 * length (RegOps reg))%nat
       /\ Serialize reg buf
          = Done (frame ++ skipn (4 * length (RegOps reg)) buf)
       /\ (length buf = (4 * length (RegOps reg))%nat ->
           Serialize reg buf = Done frame)
       /\ (forall (i : nat) (op : RegOp),
             nth_error (RegOps reg) i = Some op ->
             firstn 4 (skipn (4 * i) frame) = wireBytes (wordOf op)
             /\ (RegOp_wf op ->
                 Uint32 (firstn 4 (skipn (4 * i) frame)) = Done (wordOf op)))
       /\ (forall (AppendBytes_err : list byte -> nat -> option error)
                  (AppendBytes_old : list byte -> nat -> nat -> byte)
                  (b : list byte),
             match AppendBytes_err b (length (RegOps reg) * 4)%nat with
             | None =>
                 SerializeTo AppendBytes_err AppendBytes_old reg b
                 = Done (b ++ frame, None)
             | Some err =>
                 SerializeTo AppendBytes_err AppendBytes_old reg b
                 = Done (b, Some err)
             end).
Proof.
  intros reg buf.
  assert (Hlen : (4 * length (RegOps reg) <= length buf)%nat)
    by (cbn; lia).
  split; [exact Hlen |].
  exact (Serialize_frame_layout reg buf Hlen).
Defined.

(** ** Claims on the API server *)

Section ApiServerFacts.

Variable World : Type.
Variable Reg : Type.
Variable Hex : Reg -> string * string.

Lemma regReadAllHex_range_map (regs : list Reg) :
  forall regsHex : list RegHex,
    regReadAllHex_range Hex regs regsHex = regsHex ++ map (hexOf Hex) regs.
Proof.
  induction regs as [| reg rest IH]; intros regsHex.
  - simpl. rewrite app_nil_r. reflexivity.
  - cbn [regReadAllHex_range map]. unfold hexOf at 1.
    destruct (Hex reg) as [hexAddr hexValue]. cbn [fst snd].
    rewrite IH. rewrite <- app_assoc. reflexivity.
Qed.

Lemma failFast_cons_ok (command : Command World Reg) (m : Method Reg)
  (d : Device World Reg)
  (rest : list (Device World Reg)) (st : State World Reg)
  (err : option error) (st' : State World Reg) :
  fst (command d (world st)) = None ->
  failFast command m rest
    {| world := snd (command d (world st));
       trace := trace st ++ [Device_call d m None] |} err st' ->
  failFast command m (d :: rest) st err st'.
Proof.
  intros Hok [(Herr & Hall & Hw & Ht)
             | (pre & d' & post & e & Hds & Hall & Hfail & Herr & Hw & Ht)];
    cbn [world trace] in *.
  - left. repeat split; try assumption.
    rewrite Ht. cbn [map]. rewrite <- app_assoc. reflexivity.
  - right. exists (d :: pre), d', post, e. cbn [app allSucceed worldAfter map].
    repeat split; try assumption.
    + rewrite Hds. reflexivity.
    + rewrite Ht. rewrite <- app_assoc. reflexivity.
Qed.

Lemma failFast_cons_fail (command : Command World Reg) (m : Method Reg)
  (d : Device World Reg)
  (rest : list (Device World Reg)) (st : State World Reg) (e : error) :
  fst (command d (world st)) = Some e ->
  failFast command m (d :: rest) st (Some e)
    {| world := snd (command d (world st));
       trace := trace st ++ [Device_call d m (Some e)] |}.
Proof.
  intros Hfail. right. exists [], d, rest, e.
  cbn [app allSucceed worldAfter map world trace].
  repeat split; try assumption; reflexivity.
Qed.

Lemma failFast_nil (command : Command World Reg) (m : Method Reg)
  (st : State World Reg) :
  failFast command m [] st None st.
Proof.
  left. cbn [allSucceed worldAfter map]. rewrite app_nil_r.
  repeat split; reflexivity.
Qed.

(** The proof for one broadcast loop: [command] is the device method it
    calls. *)
Ltac range_failFast command call :=
  let d := fresh "d" in
  let rest := fresh "rest" in
  let IH := fresh "IH" in
  let st := fresh "st" in
  let Hd := fresh "Hd" in
  let e := fresh "e" in
  let w := fresh "w" in
  let H := fresh "H" in
  intros ds; induction ds as [| d rest IH]; intros st;
  [ apply failFast_nil
  | cbn [range_MStreamStart range_MStreamStop];
    unfold bind, call_MStreamStart, call_MStreamStop, bind, on_world,
      emit, ret;
    destruct (command d (world st)) as [[e |] w] eqn:Hd; cbn [fst snd];
    [ pose proof (failFast_cons_fail command call d rest st e) as H;
      rewrite Hd in H; apply H; reflexivity
    | apply failFast_cons_ok; rewrite Hd; [reflexivity | apply IH] ] ].

Lemma range_MStreamStart_failFast :
  forall (ds : list (Device World Reg)) (st : State World Reg),
    failFast (@MStreamStart World Reg) CallMStreamStart ds st
      (fst (range_MStreamStart ds st)) (snd (range_MStreamStart ds st)).
Proof. range_failFast (@MStreamStart World Reg) (@CallMStreamStart Reg). Qed.

Lemma range_MStreamStop_failFast :
  forall (ds : list (Device World Reg)) (st : State World Reg),
    failFast (@MStreamStop World Reg) CallMStreamStop ds st
      (fst (range_MStreamStop ds st)) (snd (range_MStreamStop ds st)).
Proof. range_failFast (@MStreamStop World Reg) (@CallMStreamStop Reg). Qed.

(** C3.  A stream-start or stream-stop broadcast asks the registry for all
    devices and calls them one at a time in the order of that enumeration.
    Either every call succeeds, each device is called exactly once and
    nothing is written to the response; or the calls stop at the first
    device that fails, its error is written with status 502, and no device
    after it is called. *)
Theorem handleMStreamActionAll_fail_fast (ctrl : ControlServer World Reg)
  (vars : string -> string) (st : State World Reg) :
  vars "action"%string = "start"%string
  \/ vars "action"%string = "stop"%string ->
  let start := String.eqb (vars "action"%string) "start" in
  let command : Command World Reg :=
    if start then @MStreamStart World Reg else @MStreamStop World Reg in
  let m : Method Reg :=
    if start then CallMStreamStart else CallMStreamStop in
  exists err : option error,
    failFast command m (GetAllDevices ctrl)
      {| world := world st; trace := trace st ++ [Registry_GetAllDevices] |}
      err (snd (handleMStreamActionAll ctrl vars st))
    /\ fst (handleMStreamActionAll ctrl vars st)
       = match err with
         | None => NothingWritten
         | Some e => HttpError e StatusBadGateway
         end.
Proof.
  intros [Haction | Haction]; unfold handleMStreamActionAll;
    rewrite Haction; cbn [String.eqb Ascii.eqb Bool.eqb];
    unfold bind at 1, ctrl_GetAllDevices, bind at 1, emit, ret;
    unfold bind.
  - pose proof (range_MStreamStart_failFast (GetAllDevices ctrl)
                  {| world := world st;
                     trace := trace st ++ [Registry_GetAllDevices] |}) as HF.
    destruct (range_MStreamStart (GetAllDevices ctrl) _) as [err st'].
    cbn [fst snd] in HF.
    exists err. destruct err; (split; [exact HF | reflexivity]).
  - pose proof (range_MStreamStop_failFast (GetAllDevices ctrl)
                  {| world := world st;
                     trace := trace st ++ [Registry_GetAllDevices] |}) as HF.
    destruct (range_MStreamStop (GetAllDevices ctrl) _) as [err st'].
    cbn [fst snd] in HF.
    exists err. destruct err; (split; [exact HF | reflexivity]).
Qed.

(** C4 (as amended).  For an action other than start and stop, the handler
    for all devices answers 400 with [ErrUnknownOperation] and calls neither
    the registry nor a device.  The handler for one device first looks the
    device up in the registry, once; it answers 404 with the registry's error
    when the device is unknown and 400 with [ErrUnknownOperation] otherwise,
    and calls no device. *)
Theorem handleMStreamAction_unknown_action (ctrl : ControlServer World Reg)
  (vars : string -> string) (st : State World Reg) :
  vars "action"%string <> "start"%string ->
  vars "action"%string <> "stop"%string ->
  handleMStreamActionAll ctrl vars st
  = (HttpError wrongAction StatusBadRequest, st)
  /\ handleMStreamAction ctrl vars st
     = (match GetDeviceByName ctrl (vars "device"%string) with
        | inl _ => HttpError wrongAction StatusBadRequest
        | inr err => HttpError err StatusNotFound
        end,
        {| world := world st;
           trace := trace st
                    ++ [Registry_GetDeviceByName (vars "device"%string)] |}).
Proof.
  intros Hstart Hstop.
  apply String.eqb_neq in Hstart. apply String.eqb_neq in Hstop.
  split.
  - unfold handleMStreamActionAll. rewrite Hstart, Hstop. reflexivity.
  - unfold handleMStreamAction.
    unfold bind at 1, ctrl_GetDeviceByName, bind at 1, emit, ret.
    destruct (GetDeviceByName ctrl (vars "device"%string)) as [d | err].
    + rewrite Hstart, Hstop. reflexivity.
    + reflexivity.
Qed.

(** C8.  When the device is known and its read of all registers succeeds,
    [regReadAllHex] returns the presentation form of each register in the
    order the device gave: as many entries as registers, entry [i] made
    from register [i]. *)
Theorem regReadAllHex_in_order (ctrl : ControlServer World Reg)
  (device : string) (st : State World Reg) (d : Device World Reg)
  (regs : list Reg) (w : World) :
  GetDeviceByName ctrl device = inl d ->
  RegReadAll d (world st) = (inl regs, w) ->
  exists regsHex : list RegHex,
    fst (regReadAllHex Hex ctrl device st) = inl regsHex
    /\ regsHex = map (hexOf Hex) regs
    /\ length regsHex = length regs
    /\ (forall i : nat,
          nth_error regsHex i = option_map (hexOf Hex) (nth_error regs i)).
Proof.
  intros Hdev Hread.
  exists (map (hexOf Hex) regs). split; [| split; [| split]].
  - unfold regReadAllHex.
    unfold bind at 1, ctrl_GetDeviceByName, bind at 1, emit, ret.
    rewrite Hdev.
    unfold bind, call_RegReadAll, bind, on_world, emit, ret.
    cbn [world trace]. rewrite Hread. cbn [fst].
    rewrite regReadAllHex_range_map. reflexivity.
  - reflexivity.
  - apply length_map.
  - intros i. apply nth_error_map.
Qed.

End ApiServerFacts.

(** ** The claims on the in-memory control server *)

Lemma handleMStreamActionAll_fail_fast_witness :
  let ctrl := fakeControlServer in
  let vars := routeVars "start" EmptyString in
  let st := idle in
  (vars "action"%string = "start"%string
   \/ vars "action"%string = "stop"%string)
  /\ exists err : option error,
       failFast (@MStreamStart (list string) (Z * Z)) CallMStreamStart
         (GetAllDevices ctrl)
         {| world := world st;
            trace := trace st ++ [Registry_GetAllDevices] |}
         err (snd (handleMStreamActionAll ctrl vars st))
       /\ fst (handleMStreamActionAll ctrl vars st)
          = match err with
            | None => NothingWritten
            | Some e => HttpError e StatusBadGateway
            end.
Proof.
  intros ctrl vars st.
  assert (Haction : vars "action"%string = "start"%string
                    \/ vars "action"%string = "stop"%string)
    by (left; reflexivity).
  split; [exact Haction |].
  exact (handleMStreamActionAll_fail_fast (list string) (Z * Z)
           ctrl vars st Haction).
Defined.

(** Three devices, the second of which fails to start: the first is started,
    the error of the second is reported, the third is not called. *)
Example broadcast_start_second_fails :
  handleMStreamActionAll fakeControlServer (routeVars "start" EmptyString)
    idle
  = (HttpError (ErrCollaborator "adc1") StatusBadGateway,
     {| world := ["adc0"%string];
        trace := [Registry_GetAllDevices;
                  Device_call adc0 CallMStreamStart None;
                  Device_call adc1 CallMStreamStart
                    (Some (ErrCollaborator "adc1"))] |}).
Proof. reflexivity. Qed.

Lemma handleMStreamAction_unknown_action_witness :
  let ctrl := fakeControlServer in
  let vars := routeVars "restart" "adc0" in
  let st := idle in
  vars "action"%string <> "start"%string
  /\ vars "action"%string <> "stop"%string
  /\ handleMStreamActionAll ctrl vars st
     = (HttpError wrongAction StatusBadRequest, st)
  /\ handleMStreamAction ctrl vars st
     = (match GetDeviceByName ctrl (vars "device"%string) with
        | inl _ => HttpError wrongAction StatusBadRequest
        | inr err => HttpError err StatusNotFound
        end,
        {| world := world st;
           trace := trace st
                    ++ [Registry_GetDeviceByName (vars "device"%string)] |}).
Proof.
  intros ctrl vars st.
  assert (Hstart : vars "action"%string <> "start"%string)
    by (apply String.eqb_neq; reflexivity).
  assert (Hstop : vars "action"%string <> "stop"%string)
    by (apply String.eqb_neq; reflexivity).
  split; [exact Hstart |]. split; [exact Hstop |].
  exact (handleMStreamAction_unknown_action (list string) (Z * Z)
           ctrl vars st Hstart Hstop).
Defined.

(** C4, the claim as written fails for the handler of one device: with an
    action that is neither start nor stop the registry is consulted, and for
    a device it does not know the answer is its error with status 404, not
    [ErrUnknownOperation]. *)
Lemma handleMStreamAction_consults_registry :
  routeVars "restart" "adc0" "action" <> "start"%string
  /\ routeVars "restart" "adc0" "action" <> "stop"%string
  /\ handleMStreamAction fakeControlServer (routeVars "restart" "adc0") idle
     = (HttpError wrongAction StatusBadRequest,
        {| world := [];
           trace := [Registry_GetDeviceByName "adc0"] |})
  /\ handleMStreamAction fakeControlServer (routeVars "restart" "adc9") idle
     = (HttpError (ErrCollaborator "unknown device") StatusNotFound,
        {| world := [];
           trace := [Registry_GetDeviceByName "adc9"] |})
  /\ trace (snd (handleMStreamAction fakeControlServer
                   (routeVars "restart" "adc0") idle)) <> [].
Proof.
  split; [apply String.eqb_neq; reflexivity |].
  split; [apply String.eqb_neq; reflexivity |].
  split; [reflexivity |]. split; [reflexivity |].
  discriminate.
Qed.

Lemma regReadAllHex_in_order_witness :
  let regs := [(0, 5); (1, 9)] in
  GetDeviceByName fakeControlServer "adc0" = inl adc0
  /\ RegReadAll adc0 (world idle) = (inl regs, [])
  /\ exists regsHex : list RegHex,
       fst (regReadAllHex fakeHex fakeControlServer "adc0" idle)
       = inl regsHex
       /\ regsHex = map (hexOf fakeHex) regs
       /\ length regsHex = length regs
       /\ (forall i : nat,
             nth_error regsHex i
             = option_map (hexOf fakeHex) (nth_error regs i)).
Proof.
  intros regs.
  assert (Hdev : GetDeviceByName fakeControlServer "adc0" = inl adc0)
    by reflexivity.
  assert (Hread : RegReadAll adc0 (world idle) = (inl regs, []))
    by reflexivity.
  split; [exact Hdev |]. split; [exact Hread |].
  exact (regReadAllHex_in_order (list string) (Z * Z) fakeHex
           fakeControlServer "adc0" idle adc0 regs [] Hdev Hread).
Defined.

(** The registers [(0, 5)] and [(1, 9)] are rendered in that order. *)
Example regReadAllHex_two_registers :
  fst (regReadAllHex fakeHex fakeControlServer "adc0" idle)
  = inl [ {| Addr := "0x0"; Value := "0x5" |};
          {| Addr := "0x1"; Value := "0x9" |} ].
Proof. reflexivity. Qed.

(** * Further properties of the register layer *)

Lemma of_Z_congr (a b : Z) :
  a mod 2 ^ 8 = b mod 2 ^ 8 -> byte.of_Z a = byte.of_Z b.
Proof.
  intros H. apply byte.unsigned_inj.
  rewrite !byte.unsigned_of_Z. unfold byte.wrap. assumption.
Qed.

Lemma of_Z_eq (z : Z) (b : byte) :
  z mod 2 ^ 8 = byte.unsigned b -> byte.of_Z z = b.
Proof.
  intros H. apply byte.unsigned_inj.
  rewrite byte.unsigned_of_Z. unfold byte.wrap. assumption.
Qed.

Lemma wireBytes_le32 (b0 b1 b2 b3 : byte) :
  wireBytes (le32 b0 b1 b2 b3) = [b0; b1; b2; b3].
Proof.
  pose proof (byte.unsigned_range b0). pose proof (byte.unsigned_range b1).
  pose proof (byte.unsigned_range b2). pose proof (byte.unsigned_range b3).
  unfold wireBytes.
  f_equal; [| f_equal; [| f_equal; [| f_equal]]];
    apply of_Z_eq; unfold le32;
    rewrite ?Z.shiftr_div_pow2 by lia; fields_arith.
Qed.

Lemma wireBytes_inj (v w : Z) :
  0 <= v < 2 ^ 32 -> 0 <= w < 2 ^ 32 -> wireBytes v = wireBytes w -> v = w.
Proof.
  intros Hv Hw H.
  rewrite <- (le32_of_Z v Hv), <- (le32_of_Z w Hw).
  unfold wireBytes in H. injection H as -> -> -> ->. reflexivity.
Qed.

Lemma wordsOf_range (data : list byte) :
  Forall (fun w => 0 <= w < 2 ^ 32) (wordsOf data).
Proof.
  induction data as [l Hl | b0 b1 b2 b3 rest IH] using by_words.
  - rewrite wordsOf_short by assumption. constructor.
  - cbn [wordsOf]. constructor; [apply le32_range | assumption].
Qed.

Lemma wordsOf_app (d1 d2 : list byte) :
  (length d1 mod 4 = 0)%nat -> wordsOf (d1 ++ d2) = wordsOf d1 ++ wordsOf d2.
Proof.
  intros Hmod.
  induction d1 as [l Hl | b0 b1 b2 b3 rest IH] using by_words.
  - rewrite Nat.mod_small in Hmod by assumption.
    destruct l; [reflexivity | discriminate].
  - cbn [app wordsOf]. rewrite IH; [reflexivity |].
    replace (length (b0 :: b1 :: b2 :: b3 :: rest))
      with (length rest + 1 * 4)%nat in Hmod by (simpl; lia).
    rewrite Nat.Div0.mod_add in Hmod. assumption.
Qed.

Lemma frameOf_wordsOf (data : list byte) :
  (length data mod 4 = 0)%nat -> flat_map wireBytes (wordsOf data) = data.
Proof.
  intros Hmod.
  induction data as [l Hl | b0 b1 b2 b3 rest IH] using by_words.
  - rewrite Nat.mod_small in Hmod by assumption.
    destruct l; [reflexivity | discriminate].
  - cbn [wordsOf flat_map]. rewrite wireBytes_le32. rewrite IH; [reflexivity |].
    replace (length (b0 :: b1 :: b2 :: b3 :: rest))
      with (length rest + 1 * 4)%nat in Hmod by (simpl; lia).
    rewrite Nat.Div0.mod_add in Hmod. assumption.
Qed.

Lemma regOpOf_wf (word : Z) : 0 <= word < 2 ^ 32 -> RegOp_wf (regOpOf word).
Proof.
  intros Hw. rewrite regOpOf_layout by assumption.
  unfold RegOp_wf. cbn [RegNum RegValue].
  pose proof (Z.mod_pos_bound (word / 2 ^ 16) (2 ^ 15) eq_refl).
  pose proof (Z.mod_pos_bound word (2 ^ 16) eq_refl).
  lia.
Qed.

(** A decoded operation goes back on the wire as the word it came from,
    but for the value bits of a read. *)
Lemma wordOf_regOpOf (word : Z) :
  0 <= word < 2 ^ 32 ->
  wordOf (regOpOf word)
  = if 2 ^ 31 <=? word then word - word mod 2 ^ 16 else word.
Proof.
  intros Hw.
  rewrite wordOf_layout by (apply regOpOf_wf; assumption).
  rewrite regOpOf_layout by assumption. cbn [Read RegNum RegValue].
  destruct (Z.leb_spec (2 ^ 31) word); fields_arith.
Qed.

Lemma onWire_wf (op : RegOp) : RegOp_wf op -> RegOp_wf (onWire op).
Proof.
  intros [Hn Hv]. unfold RegOp_wf, onWire. cbn [RegNum RegValue Read].
  pose proof (Z.mod_pos_bound (RegNum op) (2 ^ 15) eq_refl).
  destruct (Read op); lia.
Qed.

Lemma wordOf_onWire (op : RegOp) :
  RegOp_wf op -> wordOf (onWire op) = wordOf op.
Proof.
  intros Hwf.
  rewrite (wordOf_layout (onWire op)) by (apply onWire_wf; assumption).
  rewrite (wordOf_layout op) by assumption.
  unfold onWire. cbn [Read RegNum RegValue].
  rewrite Z.mod_mod by lia.
  destruct (Read op); reflexivity.
Qed.

Lemma Serialize_exact (ops : list RegOp) (buf : list byte) :
  length buf = (4 * length ops)%nat ->
  Serialize (layerOf ops) buf = Done (frameOf ops).
Proof.
  intros Hlen.
  rewrite Serialize_frame by (cbn [layerOf RegOps]; lia).
  cbn [layerOf RegOps]. rewrite skipn_all2 by lia.
  rewrite app_nil_r. reflexivity.
Qed.

Lemma frameOf_onWire (ops : list RegOp) :
  Forall RegOp_wf ops -> frameOf (map onWire ops) = frameOf ops.
Proof.
  induction 1 as [| op rest Hwf _ IH].
  - reflexivity.
  - cbn [map frameOf flat_map]. fold (frameOf (map onWire rest)).
    fold (frameOf rest). rewrite IH, wordOf_onWire by assumption.
    reflexivity.
Qed.

Lemma frameOf_regOpOf (ws : list Z) :
  Forall (fun w => 0 <= w < 2 ^ 32) ws ->
  Forall (fun w => w < 2 ^ 31 \/ w mod 2 ^ 16 = 0) ws ->
  frameOf (map regOpOf ws) = flat_map wireBytes ws.
Proof.
  induction 1 as [| w rest Hw _ IH]; intros Hcanon.
  - reflexivity.
  - inversion Hcanon as [| w' rest' Hc Hrest]; subst.
    cbn [map frameOf flat_map]. fold (frameOf (map regOpOf rest)).
    rewrite IH by assumption. rewrite wordOf_regOpOf by assumption.
    destruct (Z.leb_spec (2 ^ 31) w) as [Hhigh | Hlow].
    + destruct Hc as [Hc | Hc]; [lia |].
      rewrite Hc, Z.sub_0_r. reflexivity.
    + reflexivity.
Qed.

Lemma frameOf_app (ops1 ops2 : list RegOp) :
  frameOf (ops1 ++ ops2) = frameOf ops1 ++ frameOf ops2.
Proof. unfold frameOf. apply flat_map_app. Qed.

Lemma regOpOf_le32 (b0 b1 b2 b3 : byte) :
  regOpOf (le32 b0 b1 b2 b3)
  = {| Read := 2 ^ 7 <=? byte.unsigned b3;
       RegNum := byte.unsigned b2 + 2 ^ 8 * (byte.unsigned b3 mod 2 ^ 7);
       RegValue := byte.unsigned b0 + 2 ^ 8 * byte.unsigned b1 |}.
Proof.
  rewrite regOpOf_layout by apply le32_range.
  pose proof (byte.unsigned_range b0). pose proof (byte.unsigned_range b1).
  pose proof (byte.unsigned_range b2). pose proof (byte.unsigned_range b3).
  unfold le32. f_equal.
  - destruct (Z.leb_spec (2 ^ 7) (byte.unsigned b3));
      [apply Z.leb_le | apply Z.leb_gt]; fields_arith.
  - fields_arith.
  - fields_arith.
Qed.


(** X2.  The bytes of one operation on the wire: bytes 0 and 1 are the value of
    a write, low byte first, and zero for a read; byte 2 is the low byte of
    the register number; byte 3 holds bits 8..14 of the register number
    and, in its top bit, the read flag. *)
Theorem Serialize_byte_layout (op : RegOp) (b0 b1 b2 b3 : byte)
  (rest : list byte) :
  RegOp_wf op ->
  let value := if Read op then 0 else RegValue op in
  Serialize (layerOf [op]) (b0 :: b1 :: b2 :: b3 :: rest)
  = Done (byte.of_Z value
          :: byte.of_Z (value / 2 ^ 8)
          :: byte.of_Z (RegNum op)
          :: byte.of_Z ((if Read op then 2 ^ 7 else 0)
                        + (RegNum op / 2 ^ 8) mod 2 ^ 7)
          :: rest).
Proof.
  intros Hwf value.
  change (Serialize (layerOf [op]) (b0 :: b1 :: b2 :: b3 :: rest))
    with (Done (wireBytes (wordOf op) ++ rest)).
  pose proof (wordOf_layout op Hwf) as Hlayout.
  destruct Hwf as [Hn Hv].
  unfold wireBytes. cbn [app]. rewrite !Z.shiftr_div_pow2 by lia.
  rewrite Hlayout. subst value.
  do 2 f_equal; [| f_equal; [| f_equal; [| f_equal]]];
    apply of_Z_congr; destruct (Read op); fields_arith.
Qed.

Lemma Serialize_byte_layout_witness :
  let op := {| Read := true; RegNum := 0x1234; RegValue := 7 |} in
  RegOp_wf op
  /\ Serialize (layerOf [op]) [Byte.xaa; Byte.xaa; Byte.xaa; Byte.xaa]
     = Done [byte.of_Z 0; byte.of_Z (0 / 2 ^ 8); byte.of_Z 0x1234;
             byte.of_Z (2 ^ 7 + (0x1234 / 2 ^ 8) mod 2 ^ 7)].
Proof.
  intros op.
  assert (Hwf : RegOp_wf op) by (unfold RegOp_wf; cbn; lia).
  split; [exact Hwf |].
  exact (Serialize_byte_layout op Byte.xaa Byte.xaa Byte.xaa Byte.xaa []
           Hwf).
Defined.

(** X3.  The fields of a decoded operation, byte by byte: the value is bytes 0
    and 1 of its word, for a read as well; the register number is byte 2
    and the low seven bits of byte 3; the read flag is the top bit of
    byte 3. *)
Theorem DecodeFromBytes_byte_layout (data : list byte) :
  exists ops : list RegOp,
    DecodeFromBytes emptyRegLayer data
    = Done ({| Contents := data; Payload := []; RegOps := ops |}, None)
    /\ (forall i : nat,
          (4 * i + 4 <= length data)%nat ->
          nth_error ops i
          = Some {| Read := 2 ^ 7
                            <=? byte.unsigned (nth (4 * i + 3) data Byte.x00);
                    RegNum :=
                      byte.unsigned (nth (4 * i + 2) data Byte.x00)
                      + 2 ^ 8 * (byte.unsigned
                                   (nth (4 * i + 3) data Byte.x00)
                                 mod 2 ^ 7);
                    RegValue :=
                      byte.unsigned (nth (4 * i) data Byte.x00)
                      + 2 ^ 8 * byte.unsigned
                                  (nth (4 * i + 1) data Byte.x00) |}).
Proof.
  exists (map regOpOf (wordsOf data)). split.
  - apply DecodeFromBytes_words.
  - intros i Hi. rewrite nth_error_map, wordsOf_nth by assumption.
    cbn [option_map]. rewrite regOpOf_le32. reflexivity.
Qed.

(** X4.  Serializing and decoding any operations keeps the low 15 bits of each
    register number and the value of each write, and sets the value of each
    read to 0; the operations that come back serialize to the same bytes, so
    a second round trip changes nothing. *)
Theorem Serialize_DecodeFromBytes_projection
  (ops : list RegOp) (buf : list byte) :
  Forall RegOp_wf ops ->
  length buf = (4 * length ops)%nat ->
  exists (frame : list byte) (ops' : list RegOp),
    Serialize (layerOf ops) buf = Done frame
    /\ DecodeFromBytes emptyRegLayer frame
       = Done ({| Contents := frame; Payload := []; RegOps := ops' |}, None)
    /\ ops' = map (fun op =>
                     {| Read := Read op;
                        RegNum := RegNum op mod 2 ^ 15;
                        RegValue := if Read op then 0 else RegValue op |})
                  ops
    /\ Serialize (layerOf ops') buf = Done frame.
Proof.
  intros Hwf Hlen.
  exists (frameOf ops), (map onWire ops).
  split; [| split; [| split]].
  - apply Serialize_exact. assumption.
  - rewrite DecodeFromBytes_words. cbn [emptyRegLayer RegOps app].
    rewrite wordsOf_frameOf by assumption. rewrite map_map.
    do 3 f_equal. apply map_ext_in. intros op Hin. apply regOpOf_wordOf.
    rewrite Forall_forall in Hwf. apply Hwf. assumption.
  - reflexivity.
  - rewrite Serialize_exact by (rewrite length_map; assumption).
    rewrite frameOf_onWire by assumption. reflexivity.
Qed.

Lemma Serialize_DecodeFromBytes_projection_witness :
  let ops := [ {| Read := false; RegNum := 0xffff; RegValue := 0xabcd |};
               {| Read := true; RegNum := 0x8001; RegValue := 5 |} ] in
  let buf := repeat Byte.x00 8 in
  Forall RegOp_wf ops
  /\ length buf = (4 * length ops)%nat
  /\ exists (frame : list byte) (ops' : list RegOp),
       Serialize (layerOf ops) buf = Done frame
       /\ DecodeFromBytes emptyRegLayer frame
          = Done ({| Contents := frame; Payload := []; RegOps := ops' |},
                  None)
       /\ ops' = map (fun op =>
                        {| Read := Read op;
                           RegNum := RegNum op mod 2 ^ 15;
                           RegValue := if Read op then 0
                                       else RegValue op |})
                     ops
       /\ Serialize (layerOf ops') buf = Done frame.
Proof.
  intros ops buf.
  assert (Hwf : Forall RegOp_wf ops)
    by (repeat constructor; cbn; lia).
  assert (Hlen : length buf = (4 * length ops)%nat) by reflexivity.
  split; [exact Hwf |]. split; [exact Hlen |].
  exact (Serialize_DecodeFromBytes_projection ops buf Hwf Hlen).
Defined.

(** X5.  Decoding a buffer of whole words and serializing the layer gives the
    buffer back, when every word with the read bit set has its 16 value
    bits clear. *)
Theorem DecodeFromBytes_Serialize_identity (data buf : list byte) :
  (length data mod 4 = 0)%nat ->
  length buf = length data ->
  Forall (fun w => w < 2 ^ 31 \/ w mod 2 ^ 16 = 0) (wordsOf data) ->
  exists reg : RegLayer,
    DecodeFromBytes emptyRegLayer data = Done (reg, None)
    /\ Serialize reg buf = Done data.
Proof.
  intros Hmod Hlen Hcanon.
  exists {| Contents := data; Payload := [];
            RegOps := map regOpOf (wordsOf data) |}.
  split; [apply DecodeFromBytes_words |].
  assert (Hops : (4 * length (map regOpOf (wordsOf data)) = length data)%nat).
  { rewrite length_map, wordsOf_length.
    pose proof (Nat.div_mod_eq (length data) 4). lia. }
  rewrite Serialize_frame by (cbn [RegOps]; lia).
  cbn [RegOps]. rewrite skipn_all2 by lia. rewrite app_nil_r.
  rewrite frameOf_regOpOf by (apply wordsOf_range || assumption).
  rewrite frameOf_wordsOf by assumption. reflexivity.
Qed.

Lemma DecodeFromBytes_Serialize_identity_witness :
  let data := [Byte.xff; Byte.x00; Byte.x01; Byte.x00;
               Byte.x00; Byte.x00; Byte.x34; Byte.x92] in
  let buf := repeat Byte.xaa 8 in
  (length data mod 4 = 0)%nat
  /\ length buf = length data
  /\ Forall (fun w => w < 2 ^ 31 \/ w mod 2 ^ 16 = 0) (wordsOf data)
  /\ exists reg : RegLayer,
       DecodeFromBytes emptyRegLayer data = Done (reg, None)
       /\ Serialize reg buf = Done data.
Proof.
  intros data buf.
  assert (Hmod : (length data mod 4 = 0)%nat) by reflexivity.
  assert (Hlen : length buf = length data) by reflexivity.
  assert (Hcanon : Forall (fun w => w < 2 ^ 31 \/ w mod 2 ^ 16 = 0)
                     (wordsOf data)).
  { unfold data. cbn [wordsOf].
    apply Forall_cons; [left; vm_compute; reflexivity |].
    apply Forall_cons; [right; vm_compute; reflexivity |].
    apply Forall_nil. }
  split; [exact Hmod |]. split; [exact Hlen |]. split; [exact Hcanon |].
  exact (DecodeFromBytes_Serialize_identity data buf Hmod Hlen Hcanon).
Defined.

(** X6.  Decoding a buffer of whole words and then a second buffer into the same
    layer leaves the operations that one decoding of the two buffers joined
    gives; the contents of the layer are those of the last call. *)
Theorem DecodeFromBytes_concat (reg : RegLayer) (d1 d2 : list byte) :
  (length d1 mod 4 = 0)%nat ->
  exists r1 r2 r12 : RegLayer,
    DecodeFromBytes reg d1 = Done (r1, None)
    /\ DecodeFromBytes r1 d2 = Done (r2, None)
    /\ DecodeFromBytes reg (d1 ++ d2) = Done (r12, None)
    /\ RegOps r2 = RegOps r12
    /\ Contents r2 = d2
    /\ Contents r12 = d1 ++ d2.
Proof.
  intros Hmod.
  rewrite !DecodeFromBytes_words.
  eexists _, _, _.
  split; [reflexivity |].
  rewrite DecodeFromBytes_words.
  split; [reflexivity |]. split; [reflexivity |].
  cbn [RegOps Contents].
  rewrite wordsOf_app by assumption.
  rewrite map_app, app_assoc. repeat split; reflexivity.
Qed.

Lemma DecodeFromBytes_concat_witness :
  let d1 := [Byte.xff; Byte.x00; Byte.x01; Byte.x00] in
  let d2 := [Byte.x00; Byte.x00; Byte.x34; Byte.x92; Byte.x07] in
  (length d1 mod 4 = 0)%nat
  /\ exists r1 r2 r12 : RegLayer,
       DecodeFromBytes emptyRegLayer d1 = Done (r1, None)
       /\ DecodeFromBytes r1 d2 = Done (r2, None)
       /\ DecodeFromBytes emptyRegLayer (d1 ++ d2) = Done (r12, None)
       /\ RegOps r2 = RegOps r12
       /\ Contents r2 = d2
       /\ Contents r12 = d1 ++ d2.
Proof.
  intros d1 d2.
  assert (Hmod : (length d1 mod 4 = 0)%nat) by reflexivity.
  split; [exact Hmod |].
  exact (DecodeFromBytes_concat emptyRegLayer d1 d2 Hmod).
Defined.

Lemma Done_inj (A : Type) (a b : A) : Done a = Done b -> a = b.
Proof. intros H. injection H as H. exact H. Qed.

(** X7.  Two operations are written as the same four bytes exactly when they
    have the same read flag, register numbers with the same low 15 bits
    and, for writes, the same value. *)
Theorem Serialize_same_bytes_iff (op1 op2 : RegOp) (b0 b1 b2 b3 : byte)
  (rest : list byte) :
  RegOp_wf op1 -> RegOp_wf op2 ->
  Serialize (layerOf [op1]) (b0 :: b1 :: b2 :: b3 :: rest)
  = Serialize (layerOf [op2]) (b0 :: b1 :: b2 :: b3 :: rest)
  <-> (Read op1 = Read op2
       /\ RegNum op1 mod 2 ^ 15 = RegNum op2 mod 2 ^ 15
       /\ (Read op1 = false -> RegValue op1 = RegValue op2)).
Proof.
  intros Hwf1 Hwf2.
  change (Serialize (layerOf [op1]) (b0 :: b1 :: b2 :: b3 :: rest))
    with (Done (wireBytes (wordOf op1) ++ rest)).
  change (Serialize (layerOf [op2]) (b0 :: b1 :: b2 :: b3 :: rest))
    with (Done (wireBytes (wordOf op2) ++ rest)).
  split.
  - intros Heq. apply Done_inj in Heq.
    apply app_inv_tail in Heq.
    apply wireBytes_inj in Heq; try (apply wordOf_range; assumption).
    apply (f_equal regOpOf) in Heq.
    rewrite !regOpOf_wordOf in Heq by assumption.
    unfold onWire in Heq. injection Heq as Hread Hnum Hval.
    repeat split; try assumption.
    intros Hfalse. rewrite <- Hread, Hfalse in Hval. assumption.
  - intros (Hread & Hnum & Hval).
    rewrite (wordOf_layout op1), (wordOf_layout op2) by assumption.
    rewrite <- Hread, <- Hnum.
    destruct (Read op1); [reflexivity |].
    rewrite Hval by reflexivity. reflexivity.
Qed.

Lemma Serialize_same_bytes_iff_witness :
  let op1 := {| Read := true; RegNum := 0x0001; RegValue := 5 |} in
  let op2 := {| Read := true; RegNum := 0x8001; RegValue := 9 |} in
  let buf := [Byte.x00; Byte.x00; Byte.x00; Byte.x00] in
  RegOp_wf op1 /\ RegOp_wf op2
  /\ (Serialize (layerOf [op1]) buf = Serialize (layerOf [op2]) buf
      <-> (Read op1 = Read op2
           /\ RegNum op1 mod 2 ^ 15 = RegNum op2 mod 2 ^ 15
           /\ (Read op1 = false -> RegValue op1 = RegValue op2))).
Proof.
  intros op1 op2 buf.
  assert (Hwf1 : RegOp_wf op1) by (unfold RegOp_wf; cbn; lia).
  assert (Hwf2 : RegOp_wf op2) by (unfold RegOp_wf; cbn; lia).
  split; [exact Hwf1 |]. split; [exact Hwf2 |].
  exact (Serialize_same_bytes_iff op1 op2 Byte.x00 Byte.x00 Byte.x00
           Byte.x00 [] Hwf1 Hwf2).
Defined.

(** X8.  [DecodeRegLayer] returns a nil error on every buffer and adds one
    layer: the layer [DecodeFromBytes] makes of a new [RegLayer], with the
    buffer as contents, an empty payload and one operation for each whole
    word. *)
Theorem DecodeRegLayer_adds_layer (data : list byte) :
  exists reg : RegLayer,
    DecodeRegLayer data = Done (Some reg, None)
    /\ DecodeFromBytes emptyRegLayer data = Done (reg, None)
    /\ Contents reg = data
    /\ Payload reg = []
    /\ length (RegOps reg) = (length data / 4)%nat.
Proof.
  exists {| Contents := data; Payload := [];
            RegOps := map regOpOf (wordsOf data) |}.
  split; [apply DecodeRegLayer_words |].
  split; [apply DecodeFromBytes_words |].
  cbn [Contents Payload RegOps].
  rewrite length_map, wordsOf_length. repeat split; reflexivity.
Qed.

(** X9.  With a buffer whose [AppendBytes] does not fail, appending one layer
    and then another gives the bytes that appending the one layer with the
    operations of both gives, whatever the new bytes held before. *)
Theorem SerializeTo_twice
  (AppendBytes_err : list byte -> nat -> option error)
  (old1 old2 old12 : list byte -> nat -> nat -> byte)
  (reg1 reg2 : RegLayer) (b : list byte) :
  (forall (b' : list byte) (num : nat), AppendBytes_err b' num = None) ->
  exists f1 f2 : list byte,
    SerializeTo AppendBytes_err old1 reg1 b = Done (b ++ f1, None)
    /\ SerializeTo AppendBytes_err old2 reg2 (b ++ f1)
       = Done (b ++ f1 ++ f2, None)
    /\ length f1 = (4 * length (RegOps reg1))%nat
    /\ length f2 = (4 * length (RegOps reg2))%nat
    /\ SerializeTo AppendBytes_err old12
         (layerOf (RegOps reg1 ++ RegOps reg2)) b
       = Done (b ++ f1 ++ f2, None).
Proof.
  intros Hok.
  assert (Hto : forall old reg b',
             SerializeTo AppendBytes_err old reg b'
             = Done (b' ++ frameOf (RegOps reg), None)).
  { intros old reg b'. unfold SerializeTo, AppendBytes.
    rewrite Hok.
    rewrite Serialize_frame by (rewrite length_map, length_seq; lia).
    cbn [go_bind].
    rewrite skipn_all2 by (rewrite length_map, length_seq; lia).
    rewrite app_nil_r. reflexivity. }
  exists (frameOf (RegOps reg1)), (frameOf (RegOps reg2)).
  rewrite !Hto. cbn [layerOf RegOps].
  rewrite frameOf_app, !frameOf_length, <- app_assoc.
  repeat split; reflexivity.
Qed.

Lemma SerializeTo_twice_witness :
  let never := fun (_ : list byte) (_ : nat) => @None error in
  let old := fun (_ : list byte) (_ _ : nat) => Byte.xaa in
  let reg1 := layerOf [{| Read := true; RegNum := 0x1234; RegValue := 0 |}] in
  let reg2 := layerOf [{| Read := false; RegNum := 1; RegValue := 255 |}] in
  let b := [Byte.x01] in
  (forall (b' : list byte) (num : nat), never b' num = None)
  /\ exists f1 f2 : list byte,
       SerializeTo never old reg1 b = Done (b ++ f1, None)
       /\ SerializeTo never old reg2 (b ++ f1) = Done (b ++ f1 ++ f2, None)
       /\ length f1 = (4 * length (RegOps reg1))%nat
       /\ length f2 = (4 * length (RegOps reg2))%nat
       /\ SerializeTo never old (layerOf (RegOps reg1 ++ RegOps reg2)) b
          = Done (b ++ f1 ++ f2, None).
Proof.
  intros never old reg1 reg2 b.
  assert (Hok : forall (b' : list byte) (num : nat), never b' num = None)
    by reflexivity.
  split; [exact Hok |].
  exact (SerializeTo_twice never old old old reg1 reg2 b Hok).
Defined.

(** * Further properties of the API server *)

Import RegHandlers.

Section RegHandlersFacts.

Variable World : Type.
Variable Reg : Type.
Variable Hex : Reg -> string * string.
Variable ParseUint : string -> Z -> Z -> Z + error.
Variable Body : Type.
Variable json_Decode : Body -> RegHex + error.
Variable NewRegFromHex : string -> string -> Reg + error.
Variable ctrl : ControlServer World Reg.

(** Unfolds the request monad. *)
Ltac run_api :=
  unfold regReadHex, regReadAllHex, ctrl_GetDeviceByName,
    ctrl_GetAllDevices, call_RegRead, call_RegReadAll, call_RegWrite,
    call_MStreamStart, call_MStreamStop, bind, on_world, emit, ret;
  cbn [world trace fst snd].

(** X10.  A write request whose body does not decode, or whose address or value
    is not accepted by [NewRegFromHex], is answered 400 with that error; the
    registry is not consulted and no device is called. *)
Theorem handleRegWrite_malformed_request (vars : string -> string)
  (body : Body) (st : State World Reg) (err : error) :
  (json_Decode body = inr err
   \/ exists regHex : RegHex,
        json_Decode body = inl regHex
        /\ NewRegFromHex (Addr regHex) (Value regHex) = inr err) ->
  handleRegWrite json_Decode NewRegFromHex ctrl vars body st
  = (HttpError err StatusBadRequest, st).
Proof.
  intros [Hbody | (regHex & Hbody & Hreg)]; unfold handleRegWrite.
  - rewrite Hbody. reflexivity.
  - rewrite Hbody, Hreg. reflexivity.
Qed.

(** X11.  A well-formed write request looks the device up once.  An unknown
    device is answered 404 and no device is called; otherwise [RegWrite] is
    called once, on the device found and with the register built from the
    body, and its error, if any, is answered 502. *)
Theorem handleRegWrite_wellformed_request (vars : string -> string)
  (body : Body) (st : State World Reg) (regHex : RegHex) (reg : Reg) :
  json_Decode body = inl regHex ->
  NewRegFromHex (Addr regHex) (Value regHex) = inl reg ->
  handleRegWrite json_Decode NewRegFromHex ctrl vars body st
  = match GetDeviceByName ctrl (vars "device"%string) with
    | inr err =>
        (HttpError err StatusNotFound,
         {| world := world st;
            trace := trace st
                     ++ [Registry_GetDeviceByName (vars "device"%string)] |})
    | inl d =>
        (match fst (RegWrite d reg (world st)) with
         | Some e => HttpError e StatusBadGateway
         | None => NothingWritten
         end,
         {| world := snd (RegWrite d reg (world st));
            trace := trace st
                     ++ [Registry_GetDeviceByName (vars "device"%string);
                         Device_call d (CallRegWrite reg)
                           (fst (RegWrite d reg (world st)))] |})
    end.
Proof.
  intros Hbody Hreg. unfold handleRegWrite. rewrite Hbody, Hreg. run_api.
  destruct (GetDeviceByName ctrl (vars "device"%string)) as [d | err].
  - run_api. destruct (RegWrite d reg (world st)) as [[e |] w];
      cbn [fst snd world trace]; rewrite <- app_assoc; reflexivity.
  - reflexivity.
Qed.

(** X12.  A read request whose address [ParseUint] refuses is answered 400 with
    that error; the registry is not consulted and no device is called. *)
Theorem handleRegRead_bad_addr (vars : string -> string)
  (st : State World Reg) (err : error) :
  ParseUint (vars "addr"%string) 0 16 = inr err ->
  handleRegRead Hex ParseUint ctrl vars st
  = (Failed err StatusBadRequest, st).
Proof.
  intros Hparse. unfold handleRegRead. rewrite Hparse. reflexivity.
Qed.

(** X13.  Once the address is parsed, a read request that fails is answered 404
    with the error, whether the device is unknown or its [RegRead] fails. *)
Theorem handleRegRead_failure_not_found (vars : string -> string)
  (st : State World Reg) (addr : Z) (err : error) :
  ParseUint (vars "addr"%string) 0 16 = inl addr ->
  (GetDeviceByName ctrl (vars "device"%string) = inr err
   \/ exists d : Device World Reg,
        GetDeviceByName ctrl (vars "device"%string) = inl d
        /\ fst (RegRead d (uint16 addr) (world st)) = inr err) ->
  fst (handleRegRead Hex ParseUint ctrl vars st)
  = Failed err StatusNotFound.
Proof.
  intros Hparse [Hdev | (d & Hdev & Hread)];
    unfold handleRegRead; rewrite Hparse; run_api; rewrite Hdev.
  - reflexivity.
  - run_api. destruct (RegRead d (uint16 addr) (world st)) as [r w].
    cbn [fst] in Hread. subst r. reflexivity.
Qed.

(** X14.  A read request that succeeds looks the device up once and calls
    [RegRead] once, with the parsed address cut to 16 bits; the answer is
    the presentation form of the register the device returned. *)
Theorem handleRegRead_success (vars : string -> string)
  (st : State World Reg) (addr : Z) (d : Device World Reg) (reg : Reg)
  (w : World) :
  ParseUint (vars "addr"%string) 0 16 = inl addr ->
  GetDeviceByName ctrl (vars "device"%string) = inl d ->
  RegRead d (addr mod 2 ^ 16) (world st) = (inl reg, w) ->
  handleRegRead Hex ParseUint ctrl vars st
  = (Encoded (hexOf Hex reg),
     {| world := w;
        trace := trace st
                 ++ [Registry_GetDeviceByName (vars "device"%string);
                     Device_call d (CallRegRead (addr mod 2 ^ 16)) None] |}).
Proof.
  intros Hparse Hdev Hread.
  unfold handleRegRead. rewrite Hparse. run_api. rewrite Hdev. run_api.
  fold (uint16 addr) in Hread |- *. rewrite Hread.
  cbn [error_of world trace].
  unfold hexOf. destruct (Hex reg) as [hexAddr hexValue]. cbn [fst snd].
  rewrite <- app_assoc. reflexivity.
Qed.

(** X15.  A read of all registers that fails is answered 404 with the error,
    whether the device is unknown or its [RegReadAll] fails. *)
Theorem handleRegReadAll_failure_not_found (vars : string -> string)
  (st : State World Reg) (err : error) :
  (GetDeviceByName ctrl (vars "device"%string) = inr err
   \/ exists d : Device World Reg,
        GetDeviceByName ctrl (vars "device"%string) = inl d
        /\ fst (RegReadAll d (world st)) = inr err) ->
  fst (handleRegReadAll Hex ctrl vars st) = Failed err StatusNotFound.
Proof.
  intros [Hdev | (d & Hdev & Hread)];
    unfold handleRegReadAll; run_api; rewrite Hdev.
  - reflexivity.
  - run_api. destruct (RegReadAll d (world st)) as [r w].
    cbn [fst] in Hread. subst r. reflexivity.
Qed.

(** X16.  A read of all registers that succeeds looks the device up once and
    calls [RegReadAll] once; the answer lists the presentation form of each
    register in the order the device gave. *)
Theorem handleRegReadAll_success (vars : string -> string)
  (st : State World Reg) (d : Device World Reg) (regs : list Reg)
  (w : World) :
  GetDeviceByName ctrl (vars "device"%string) = inl d ->
  RegReadAll d (world st) = (inl regs, w) ->
  handleRegReadAll Hex ctrl vars st
  = (Encoded (map (hexOf Hex) regs),
     {| world := w;
        trace := trace st
                 ++ [Registry_GetDeviceByName (vars "device"%string);
                     Device_call d CallRegReadAll None] |}).
Proof.
  intros Hdev Hread.
  unfold handleRegReadAll. run_api. rewrite Hdev. run_api.
  rewrite Hread. cbn [error_of world trace].
  rewrite regReadAllHex_range_map. cbn [app].
  rewrite <- app_assoc. reflexivity.
Qed.

End RegHandlersFacts.

Section MStreamFacts.

Variable World : Type.
Variable Reg : Type.
Variable ctrl : ControlServer World Reg.

(** Unfolds the request monad. *)
Ltac run_stream :=
  unfold ctrl_GetDeviceByName, ctrl_GetAllDevices, call_MStreamStart,
    call_MStreamStop, bind, on_world, emit, ret;
  cbn [world trace fst snd].

(** X17.  A stream request for a device the registry does not know is answered
    404 with the registry's error, whatever the action; no device is
    called. *)
Theorem handleMStreamAction_unknown_device (vars : string -> string)
  (st : State World Reg) (err : error) :
  GetDeviceByName ctrl (vars "device"%string) = inr err ->
  handleMStreamAction ctrl vars st
  = (HttpError err StatusNotFound,
     {| world := world st;
        trace := trace st
                 ++ [Registry_GetDeviceByName (vars "device"%string)] |}).
Proof.
  intros Hdev. unfold handleMStreamAction. run_stream. rewrite Hdev.
  reflexivity.
Qed.

(** X18.  A start or stop request for a known device calls that method of the
    device once, and no other; its error, if any, is answered 502, and
    nothing is written otherwise. *)
Theorem handleMStreamAction_start_stop (vars : string -> string)
  (st : State World Reg) (d : Device World Reg) :
  GetDeviceByName ctrl (vars "device"%string) = inl d ->
  vars "action"%string = "start"%string
  \/ vars "action"%string = "stop"%string ->
  let start := String.eqb (vars "action"%string) "start" in
  let result :=
    if start then MStreamStart d (world st) else MStreamStop d (world st) in
  let m : Method Reg :=
    if start then CallMStreamStart else CallMStreamStop in
  handleMStreamAction ctrl vars st
  = (match fst result with
     | Some e => HttpError e StatusBadGateway
     | None => NothingWritten
     end,
     {| world := snd result;
        trace := trace st
                 ++ [Registry_GetDeviceByName (vars "device"%string);
                     Device_call d m (fst result)] |}).
Proof.
  intros Hdev [Haction | Haction]; unfold handleMStreamAction; run_stream;
    rewrite Hdev, Haction; cbn [String.eqb Ascii.eqb Bool.eqb]; run_stream.
  - destruct (MStreamStart d (world st)) as [[e |] w];
      cbn [fst snd world trace]; rewrite <- app_assoc; reflexivity.
  - destruct (MStreamStop d (world st)) as [[e |] w];
      cbn [fst snd world trace]; rewrite <- app_assoc; reflexivity.
Qed.

(** X19.  A start or stop broadcast over a registry without devices asks for
    the devices once, calls none and writes nothing. *)
Theorem handleMStreamActionAll_no_devices (vars : string -> string)
  (st : State World Reg) :
  GetAllDevices ctrl = [] ->
  vars "action"%string = "start"%string
  \/ vars "action"%string = "stop"%string ->
  handleMStreamActionAll ctrl vars st
  = (NothingWritten,
     {| world := world st;
        trace := trace st ++ [Registry_GetAllDevices] |}).
Proof.
  intros Hnone [Haction | Haction]; unfold handleMStreamActionAll;
    rewrite Haction; cbn [String.eqb Ascii.eqb Bool.eqb]; run_stream;
    rewrite Hnone; reflexivity.
Qed.

(** X20.  Over a registry whose only device is the one a request names, the
    broadcast and the single-device handler give the same answer and leave
    the hardware in the same state. *)
Theorem handleMStreamActionAll_one_device (vars : string -> string)
  (st : State World Reg) (d : Device World Reg) :
  GetAllDevices ctrl = [d] ->
  GetDeviceByName ctrl (vars "device"%string) = inl d ->
  vars "action"%string = "start"%string
  \/ vars "action"%string = "stop"%string ->
  fst (handleMStreamActionAll ctrl vars st)
  = fst (handleMStreamAction ctrl vars st)
  /\ world (snd (handleMStreamActionAll ctrl vars st))
     = world (snd (handleMStreamAction ctrl vars st)).
Proof.
  intros Hall Hdev [Haction | Haction];
    unfold handleMStreamActionAll, handleMStreamAction; run_stream;
    rewrite Hdev, Hall, Haction; cbn [String.eqb Ascii.eqb Bool.eqb];
    cbn [range_MStreamStart range_MStreamStop]; run_stream.
  - destruct (MStreamStart d (world st)) as [[e |] w];
      split; reflexivity.
  - destruct (MStreamStop d (world st)) as [[e |] w];
      split; reflexivity.
Qed.

End MStreamFacts.

(** ** The further properties on the in-memory control server *)

Lemma handleRegWrite_malformed_request_witness :
  let vars := regVars "adc0" EmptyString in
  let body : option RegHex := Some {| Addr := "12"; Value := "0x5" |} in
  let err := ErrCollaborator "invalid syntax" in
  (fakeDecode body = inr err
   \/ exists regHex : RegHex,
        fakeDecode body = inl regHex
        /\ fakeNewRegFromHex (Addr regHex) (Value regHex) = inr err)
  /\ handleRegWrite fakeDecode fakeNewRegFromHex fakeControlServer vars body
       idle
     = (HttpError err StatusBadRequest, idle).
Proof.
  intros vars body err.
  assert (H : fakeDecode body = inr err
              \/ exists regHex : RegHex,
                   fakeDecode body = inl regHex
                   /\ fakeNewRegFromHex (Addr regHex) (Value regHex)
                      = inr err).
  { right. exists {| Addr := "12"; Value := "0x5" |}.
    split; reflexivity. }
  split; [exact H |].
  exact (handleRegWrite_malformed_request (list string) (Z * Z)
           (option RegHex) fakeDecode fakeNewRegFromHex fakeControlServer
           vars body idle err H).
Defined.

Lemma handleRegWrite_wellformed_request_witness :
  let vars := regVars "adc0" EmptyString in
  let regHex := {| Addr := "0x1"; Value := "0x9" |} in
  let body : option RegHex := Some regHex in
  fakeDecode body = inl regHex
  /\ fakeNewRegFromHex (Addr regHex) (Value regHex) = inl (1, 9)
  /\ handleRegWrite fakeDecode fakeNewRegFromHex fakeControlServer vars body
       idle
     = (NothingWritten,
        {| world := [];
           trace := [Registry_GetDeviceByName "adc0";
                     Device_call adc0 (CallRegWrite (1, 9)) None] |}).
Proof.
  intros vars regHex body.
  assert (Hbody : fakeDecode body = inl regHex) by reflexivity.
  assert (Hreg : fakeNewRegFromHex (Addr regHex) (Value regHex)
                 = inl (1, 9)) by reflexivity.
  split; [exact Hbody |]. split; [exact Hreg |].
  exact (handleRegWrite_wellformed_request (list string) (Z * Z)
           (option RegHex) fakeDecode fakeNewRegFromHex fakeControlServer
           vars body idle regHex (1, 9) Hbody Hreg).
Defined.

Lemma handleRegRead_bad_addr_witness :
  let vars := regVars "adc0" "12" in
  let err := ErrCollaborator "invalid syntax" in
  fakeParseUint (vars "addr"%string) 0 16 = inr err
  /\ handleRegRead fakeHex fakeParseUint fakeControlServer vars idle
     = (Failed err StatusBadRequest, idle).
Proof.
  intros vars err.
  assert (H : fakeParseUint (vars "addr"%string) 0 16 = inr err)
    by reflexivity.
  split; [exact H |].
  exact (handleRegRead_bad_addr (list string) (Z * Z) fakeHex fakeParseUint
           fakeControlServer vars idle err H).
Defined.

Lemma handleRegRead_failure_not_found_witness :
  let vars := regVars "adc1" "0x0001" in
  let err := ErrCollaborator "adc1" in
  fakeParseUint (vars "addr"%string) 0 16 = inl 1
  /\ (GetDeviceByName fakeControlServer (vars "device"%string) = inr err
      \/ exists d : Device (list string) (Z * Z),
           GetDeviceByName fakeControlServer (vars "device"%string) = inl d
           /\ fst (RegRead d (uint16 1) (world idle)) = inr err)
  /\ fst (handleRegRead fakeHex fakeParseUint fakeControlServer vars idle)
     = Failed err StatusNotFound.
Proof.
  intros vars err.
  assert (Hparse : fakeParseUint (vars "addr"%string) 0 16 = inl 1)
    by reflexivity.
  assert (Hfail :
            GetDeviceByName fakeControlServer (vars "device"%string)
            = inr err
            \/ exists d : Device (list string) (Z * Z),
                 GetDeviceByName fakeControlServer (vars "device"%string)
                 = inl d
                 /\ fst (RegRead d (uint16 1) (world idle)) = inr err).
  { right. exists adc1. split; reflexivity. }
  split; [exact Hparse |]. split; [exact Hfail |].
  exact (handleRegRead_failure_not_found (list string) (Z * Z) fakeHex
           fakeParseUint fakeControlServer vars idle 1 err Hparse Hfail).
Defined.

Lemma handleRegRead_success_witness :
  let vars := regVars "adc0" "0x0001" in
  fakeParseUint (vars "addr"%string) 0 16 = inl 1
  /\ GetDeviceByName fakeControlServer (vars "device"%string) = inl adc0
  /\ RegRead adc0 (1 mod 2 ^ 16) (world idle) = (inl (1, 0), [])
  /\ handleRegRead fakeHex fakeParseUint fakeControlServer vars idle
     = (Encoded (hexOf fakeHex (1, 0)),
        {| world := [];
           trace := [Registry_GetDeviceByName "adc0";
                     Device_call adc0 (CallRegRead (1 mod 2 ^ 16)) None] |}).
Proof.
  intros vars.
  assert (Hparse : fakeParseUint (vars "addr"%string) 0 16 = inl 1)
    by reflexivity.
  assert (Hdev : GetDeviceByName fakeControlServer (vars "device"%string)
                 = inl adc0) by reflexivity.
  assert (Hread : RegRead adc0 (1 mod 2 ^ 16) (world idle)
                  = (inl (1, 0), [])) by reflexivity.
  split; [exact Hparse |]. split; [exact Hdev |]. split; [exact Hread |].
  exact (handleRegRead_success (list string) (Z * Z) fakeHex fakeParseUint
           fakeControlServer vars idle 1 adc0 (1, 0) [] Hparse Hdev Hread).
Defined.

Lemma handleRegReadAll_failure_not_found_witness :
  let vars := regVars "adc9" EmptyString in
  let err := ErrCollaborator "unknown device" in
  (GetDeviceByName fakeControlServer (vars "device"%string) = inr err
   \/ exists d : Device (list string) (Z * Z),
        GetDeviceByName fakeControlServer (vars "device"%string) = inl d
        /\ fst (RegReadAll d (world idle)) = inr err)
  /\ fst (handleRegReadAll fakeHex fakeControlServer vars idle)
     = Failed err StatusNotFound.
Proof.
  intros vars err.
  assert (Hfail :
            GetDeviceByName fakeControlServer (vars "device"%string)
            = inr err
            \/ exists d : Device (list string) (Z * Z),
                 GetDeviceByName fakeControlServer (vars "device"%string)
                 = inl d
                 /\ fst (RegReadAll d (world idle)) = inr err)
    by (left; reflexivity).
  split; [exact Hfail |].
  exact (handleRegReadAll_failure_not_found (list string) (Z * Z) fakeHex
           fakeControlServer vars idle err Hfail).
Defined.

Lemma handleRegReadAll_success_witness :
  let vars := regVars "adc0" EmptyString in
  GetDeviceByName fakeControlServer (vars "device"%string) = inl adc0
  /\ RegReadAll adc0 (world idle) = (inl [(0, 5); (1, 9)], [])
  /\ handleRegReadAll fakeHex fakeControlServer vars idle
     = (Encoded (map (hexOf fakeHex) [(0, 5); (1, 9)]),
        {| world := [];
           trace := [Registry_GetDeviceByName "adc0";
                     Device_call adc0 CallRegReadAll None] |}).
Proof.
  intros vars.
  assert (Hdev : GetDeviceByName fakeControlServer (vars "device"%string)
                 = inl adc0) by reflexivity.
  assert (Hread : RegReadAll adc0 (world idle)
                  = (inl [(0, 5); (1, 9)], [])) by reflexivity.
  split; [exact Hdev |]. split; [exact Hread |].
  exact (handleRegReadAll_success (list string) (Z * Z) fakeHex
           fakeControlServer vars idle adc0 [(0, 5); (1, 9)] [] Hdev Hread).
Defined.

Lemma handleMStreamAction_unknown_device_witness :
  let vars := routeVars "start" "adc9" in
  let err := ErrCollaborator "unknown device" in
  GetDeviceByName fakeControlServer (vars "device"%string) = inr err
  /\ handleMStreamAction fakeControlServer vars idle
     = (HttpError err StatusNotFound,
        {| world := []; trace := [Registry_GetDeviceByName "adc9"] |}).
Proof.
  intros vars err.
  assert (Hdev : GetDeviceByName fakeControlServer (vars "device"%string)
                 = inr err) by reflexivity.
  split; [exact Hdev |].
  exact (handleMStreamAction_unknown_device (list string) (Z * Z)
           fakeControlServer vars idle err Hdev).
Defined.

Lemma handleMStreamAction_start_stop_witness :
  let vars := routeVars "stop" "adc1" in
  GetDeviceByName fakeControlServer (vars "device"%string) = inl adc1
  /\ (vars "action"%string = "start"%string
      \/ vars "action"%string = "stop"%string)
  /\ handleMStreamAction fakeControlServer vars idle
     = (HttpError (ErrCollaborator "adc1") StatusBadGateway,
        {| world := [];
           trace := [Registry_GetDeviceByName "adc1";
                     Device_call adc1 CallMStreamStop
                       (Some (ErrCollaborator "adc1"))] |}).
Proof.
  intros vars.
  assert (Hdev : GetDeviceByName fakeControlServer (vars "device"%string)
                 = inl adc1) by reflexivity.
  assert (Haction : vars "action"%string = "start"%string
                    \/ vars "action"%string = "stop"%string)
    by (right; reflexivity).
  split; [exact Hdev |]. split; [exact Haction |].
  exact (handleMStreamAction_start_stop (list string) (Z * Z)
           fakeControlServer vars idle adc1 Hdev Haction).
Defined.

Lemma handleMStreamActionAll_no_devices_witness :
  let vars := routeVars "start" EmptyString in
  GetAllDevices emptyControlServer = []
  /\ (vars "action"%string = "start"%string
      \/ vars "action"%string = "stop"%string)
  /\ handleMStreamActionAll emptyControlServer vars idle
     = (NothingWritten,
        {| world := []; trace := [Registry_GetAllDevices] |}).
Proof.
  intros vars.
  assert (Hnone : GetAllDevices emptyControlServer = []) by reflexivity.
  assert (Haction : vars "action"%string = "start"%string
                    \/ vars "action"%string = "stop"%string)
    by (left; reflexivity).
  split; [exact Hnone |]. split; [exact Haction |].
  exact (handleMStreamActionAll_no_devices (list string) (Z * Z)
           emptyControlServer vars idle Hnone Haction).
Defined.

Lemma handleMStreamActionAll_one_device_witness :
  let vars := routeVars "start" "adc0" in
  GetAllDevices oneDeviceControlServer = [adc0]
  /\ GetDeviceByName oneDeviceControlServer (vars "device"%string)
     = inl adc0
  /\ (vars "action"%string = "start"%string
      \/ vars "action"%string = "stop"%string)
  /\ fst (handleMStreamActionAll oneDeviceControlServer vars idle)
     = fst (handleMStreamAction oneDeviceControlServer vars idle)
  /\ world (snd (handleMStreamActionAll oneDeviceControlServer vars idle))
     = world (snd (handleMStreamAction oneDeviceControlServer vars idle)).
Proof.
  intros vars.
  assert (Hall : GetAllDevices oneDeviceControlServer = [adc0])
    by reflexivity.
  assert (Hdev : GetDeviceByName oneDeviceControlServer
                   (vars "device"%string) = inl adc0) by reflexivity.
  assert (Haction : vars "action"%string = "start"%string
                    \/ vars "action"%string = "stop"%string)
    by (left; reflexivity).
  split; [exact Hall |]. split; [exact Hdev |]. split; [exact Haction |].
  exact (handleMStreamActionAll_one_device (list string) (Z * Z)
           oneDeviceControlServer vars idle adc0 Hall Hdev Haction).
Defined.
